(** * Yamaha XMV amplifier controller: a shallow embedding

    The development follows [custom_components/xmv_controller]:
    [const.py] (constants), [api.py] (class [AmplifierClient]) and
    [media_player.py] (class [XmvMediaPlayer]).

    Conventions of the embedding.
    - Python [int] is [Z]; Python [float] is idealised as an exact rational
      [Q] (no binary rounding, no infinities or NaN).  Every concrete input
      used below is a dyadic rational on which the binary64 computation is
      exact as well.
    - Python [str] is [string]; the client only ever sees text decoded with
      the [ascii] codec.
    - A [dict] whose iteration order matters is an association list in
      insertion order.
    - Methods that mutate [self], call user callbacks or raise are
      functions in a small state-and-exception monad over the record
      [world]. *)

From Stdlib Require Import ZArith QArith Qround Qabs List String Ascii Bool Lia Lqa.
From Stdlib Require Import Decimal DecimalString DecimalPos.
Import ListNotations.

Local Open Scope Z_scope.

(** ** const.py *)

Module Const.

Definition AMP_MUTE_VALUE : Z := -13801.
Definition RECONNECT_DELAY_INITIAL : Z := 5.
Definition RECONNECT_DELAY_MAX : Z := 60.

End Const.

(** ** The Python builtins used by the client *)

Module Py.

(** The exceptions that can travel through the modelled code.
    [UnicodeDecodeError] is a subclass of [ValueError];
    [ConnectionResetError] and [BrokenPipeError] are subclasses of
    [OSError].  [TimeoutError] stands for [asyncio.TimeoutError], which
    the source lists next to [OSError] and which is kept apart from it
    here. *)
Inductive exn : Type :=
| IndexError
| ValueError
| UnicodeDecodeError
| ZeroDivisionError
| OSError
| ConnectionResetError
| BrokenPipeError
| TimeoutError
| OtherException (name : string).

Definition isinstance_ValueError (e : exn) : bool :=
  match e with ValueError | UnicodeDecodeError => true | _ => false end.

Definition isinstance_IndexError (e : exn) : bool :=
  match e with IndexError => true | _ => false end.

Definition isinstance_OSError (e : exn) : bool :=
  match e with
  | OSError | ConnectionResetError | BrokenPipeError => true
  | _ => false
  end.

Definition isinstance_TimeoutError (e : exn) : bool :=
  match e with TimeoutError => true | _ => false end.

(** [int(x)] for a float [x]: truncation toward zero. *)
Definition int_of_float (x : Q) : Z := Z.quot (Qnum x) (Zpos (Qden x)).


(** [a / b] on two ints: true division, [ZeroDivisionError] on [b = 0]. *)
Definition truediv (a b : Z) : exn + Q :=
  if b =? 0 then inl ZeroDivisionError else inr (inject_Z a / inject_Z b)%Q.

(** Two-argument [min] and [max]: the first argument is kept unless the
    second is strictly smaller (resp. larger). *)
Definition min (a b : Q) : Q := if Qle_bool a b then a else b.
Definition max (a b : Q) : Q := if Qle_bool b a then a else b.

(** Truthiness of [Optional[float]]: [None] and [0.0] are falsy. *)
Definition truthy (x : option Q) : bool :=
  match x with
  | None => false
  | Some q => negb (Qeq_bool q 0)
  end.

(** [x or d] on an [Optional[float]] with a float default. *)
Definition or_else (x : option Q) (d : Q) : Q :=
  match x with
  | Some q => if truthy x then q else d
  | None => d
  end.

(** [str(n)] for an int. *)
Definition str_of_int (n : Z) : string := NilEmpty.string_of_int (Z.to_int n).

(** [c.isspace()] on an ASCII character: tab, the line breaks and the
    separators 0x1c-0x1f, and the space. *)
Definition isspace (c : ascii) : bool :=
  let n := nat_of_ascii c in
  ((9 <=? n) && (n <=? 13) || (28 <=? n) && (n <=? 32))%nat.

Definition is_empty (s : string) : bool :=
  match s with EmptyString => true | String _ _ => false end.

Definition snoc (s : string) (c : ascii) : string := (s ++ String c EmptyString)%string.

(** [s.split()]: the maximal runs of non-whitespace characters.
    [cur] is the run being read. *)
Fixpoint split_from (cur s : string) : list string :=
  match s with
  | EmptyString => if is_empty cur then [] else [cur]
  | String c rest =>
      if isspace c
      then (if is_empty cur then split_from EmptyString rest
            else cur :: split_from EmptyString rest)
      else split_from (snoc cur c) rest
  end.

Definition split (s : string) : list string := split_from EmptyString s.

(** [s.split(sep)] for a one-character separator: empty pieces are kept. *)
Fixpoint split_on_from (sep : ascii) (cur s : string) : list string :=
  match s with
  | EmptyString => [cur]
  | String c rest =>
      if Ascii.eqb c sep
      then cur :: split_on_from sep EmptyString rest
      else split_on_from sep (snoc cur c) rest
  end.

Definition split_on (sep : ascii) (s : string) : list string :=
  split_on_from sep EmptyString s.

(** [s.strip()]. *)
Fixpoint lstrip (s : string) : string :=
  match s with
  | EmptyString => EmptyString
  | String c rest => if isspace c then lstrip rest else s
  end.

Fixpoint rstrip (s : string) : string :=
  match s with
  | EmptyString => EmptyString
  | String c rest =>
      let r := rstrip rest in
      if isspace c && is_empty r then EmptyString else String c r
  end.

Definition strip (s : string) : string := rstrip (lstrip s).

(** [xs[i]] for a non-negative constant index. *)
Definition getitem {A : Type} (xs : list A) (i : nat) : exn + A :=
  match nth_error xs i with
  | Some x => inr x
  | None => inl IndexError
  end.

Definition digit_of (c : ascii) : option Z :=
  let n := nat_of_ascii c in
  if ((48 <=? n) && (n <=? 57))%nat then Some (Z.of_nat (n - 48)) else None.

(** The digits of a decimal literal: single underscores are allowed
    between digits only.  [after_digit] tells whether the previous
    character was a digit. *)
Fixpoint int_digits (acc : Z) (after_digit : bool) (s : string) : option Z :=
  match s with
  | EmptyString => if after_digit then Some acc else None
  | String c rest =>
      match digit_of c with
      | Some d => int_digits (10 * acc + d) true rest
      | None =>
          if Ascii.eqb c "_" && after_digit
          then int_digits acc false rest
          else None
      end
  end.

(** [int(s)] for an ASCII [str]: surrounding whitespace, an optional
    sign, a decimal literal; [ValueError] otherwise.  (The interpreter's
    cap on the number of digits, itself a [ValueError], is left out.) *)
Definition int_of_str (s : string) : exn + Z :=
  let body := strip s in
  let signed :=
    match body with
    | String "-" rest => option_map Z.opp (int_digits 0 false rest)
    | String "+" rest => int_digits 0 false rest
    | _ => int_digits 0 false body
    end in
  match signed with
  | Some n => inr n
  | None => inl ValueError
  end.

(** Truthiness of an [Optional[str]]: [None] and the empty string are
    falsy. *)
Definition truthy_str (x : option string) : bool :=
  match x with
  | None => false
  | Some s => negb (is_empty s)
  end.

Definition newline : string := String (ascii_of_nat 10) EmptyString.

End Py.

(** ** Volume conversions of [AmplifierClient] *)

Module Volume.

(** [__init__], lines 43-44: the configured dB bounds are scaled by 100. *)
Definition db_100 (db : Z) : Z := db * 100.

(** [async_set_volume], lines 308-309. *)
Definition amp_volume (min_db_100 max_db_100 : Z) (ha_volume : Q) : Z :=
  let db_range := max_db_100 - min_db_100 in
  Py.int_of_float (inject_Z min_db_100 + ha_volume * inject_Z db_range)%Q.

(** [_process_message], lines 260-261: the conditional expression
    guarding the division. *)
Definition ha_volume (min_db_100 max_db_100 value : Z) : Py.exn + Q :=
  let db_range := max_db_100 - min_db_100 in
  if negb (db_range =? 0)
  then Py.truediv (value - min_db_100) db_range
  else inr 1%Q.

(** [_process_message], line 262: the clamp. *)
Definition clamp (v : Q) : Q := Py.max 0 (Py.min 1 v).

(** Lines 260-262 together: the value stored under ["volume"]. *)
Definition normalized (min_db_100 max_db_100 value : Z) : Py.exn + Q :=
  match ha_volume min_db_100 max_db_100 value with
  | inl e => inl e
  | inr v => inr (clamp v)
  end.

(** [n] is an integer nearest to [x]. *)
Definition nearest_integer (x : Q) (n : Z) : Prop :=
  (Qabs (x - inject_Z n) <= 1 # 2)%Q.

End Volume.

(** ** api.py: the client, its callbacks and its transport *)

Module Api.

Import Py.

Definition HANDSHAKE_RESPONSE : string :=
  ("OK devstatus runmode " ++ String (ascii_of_nat 34) "normal" ++ String (ascii_of_nat 34) "")%string.
Definition PATH_ID_POWER : string := "60003".
Definition PATH_ID_VOLUME : string := "60002".

(** The payload handed to callbacks: a dict with keys drawn from
    ["available"], ["power"], ["mute"], ["volume"]; an absent key is
    [None]. *)
Record patch : Type := {
  available : option bool;
  power : option bool;
  mute : option bool;
  volume : option Q
}.

Definition empty_patch : patch :=
  {| available := None; power := None; mute := None; volume := None |}.

(** [bool(update_data)]: a dict is truthy when it has a key. *)
Definition patch_truthy (p : patch) : bool :=
  match available p, power p, mute p, volume p with
  | None, None, None, None => false
  | _, _, _, _ => true
  end.

(** A registered callable: an identity, and whether calling it on a
    patch raises. *)
Record callback : Type := {
  cb_id : nat;
  cb_body : patch -> option exn
}.

(** The attributes of [AmplifierClient] ([__init__], lines 41-53).  The
    reader and the writer are handles of the open connection; a task
    attribute records whether a task is held. *)
Record client : Type := {
  min_db_100 : Z;
  max_db_100 : Z;
  reader : option nat;
  writer : option nat;
  listen_task : bool;
  callbacks : list (string * list callback);
  is_connected : bool;
  keep_alive_channel_id : option string
}.

(** [__init__]. *)
Definition init (min_db max_db : Z) : client :=
  {| min_db_100 := Volume.db_100 min_db;
     max_db_100 := Volume.db_100 max_db;
     reader := None;
     writer := None;
     listen_task := false;
     callbacks := [];
     is_connected := false;
     keep_alive_channel_id := None |}.

(** What the program acts on: the client object, the calls made to
    callbacks so far (oldest first), the lines written to the socket so
    far (oldest first), and the outcome the environment has in store for
    each coming write-and-drain ([None], or an exhausted list, is
    success). *)
Record world : Type := {
  self : client;
  calls : list (nat * patch);
  wire : list string;
  faults : list (option exn)
}.

(** State and exceptions. *)
Definition M (A : Type) : Type := world -> (exn + A) * world.

Definition ret {A : Type} (a : A) : M A := fun w => (inr a, w).

Definition raise {A : Type} (e : exn) : M A := fun w => (inl e, w).

Definition bind {A B : Type} (m : M A) (k : A -> M B) : M B :=
  fun w =>
    match m w with
    | (inr a, w') => k a w'
    | (inl e, w') => (inl e, w')
    end.

Definition lift {A : Type} (r : exn + A) : M A :=
  match r with
  | inr a => ret a
  | inl e => raise e
  end.

(** [try: body  except <classes>: handler]. *)
Definition try_except {A : Type}
    (body : M A) (handled : exn -> bool) (handler : exn -> M A) : M A :=
  fun w =>
    match body w with
    | (inr a, w') => (inr a, w')
    | (inl e, w') => if handled e then handler e w' else (inl e, w')
    end.

Definition get_self : M client := fun w => (inr (self w), w).

Definition set_self (c : client) : M unit :=
  fun w => (inr tt, {| self := c; calls := calls w; wire := wire w; faults := faults w |}).

End Api.

Declare Scope py_scope.
Delimit Scope py_scope with py.
Notation "x <- m ;; k" := (Api.bind m (fun x => k))
  (at level 61, m at next level, right associativity) : py_scope.
Notation "m ;;; k" := (Api.bind m (fun _ => k))
  (at level 61, right associativity) : py_scope.

(** ** api.py: the methods of [AmplifierClient] *)

Module Client.

Import Py Api.
Local Open Scope py_scope.

(** *** Attribute updates *)

Definition with_transport (r w : option nat) (c : client) : client :=
  {| min_db_100 := min_db_100 c; max_db_100 := max_db_100 c;
     reader := r; writer := w;
     listen_task := listen_task c; callbacks := callbacks c;
     is_connected := is_connected c;
     keep_alive_channel_id := keep_alive_channel_id c |}.

Definition with_listen_task (t : bool) (c : client) : client :=
  {| min_db_100 := min_db_100 c; max_db_100 := max_db_100 c;
     reader := reader c; writer := writer c;
     listen_task := t; callbacks := callbacks c;
     is_connected := is_connected c;
     keep_alive_channel_id := keep_alive_channel_id c |}.

Definition with_callbacks (d : list (string * list callback)) (c : client) : client :=
  {| min_db_100 := min_db_100 c; max_db_100 := max_db_100 c;
     reader := reader c; writer := writer c;
     listen_task := listen_task c; callbacks := d;
     is_connected := is_connected c;
     keep_alive_channel_id := keep_alive_channel_id c |}.

Definition with_is_connected (b : bool) (c : client) : client :=
  {| min_db_100 := min_db_100 c; max_db_100 := max_db_100 c;
     reader := reader c; writer := writer c;
     listen_task := listen_task c; callbacks := callbacks c;
     is_connected := b;
     keep_alive_channel_id := keep_alive_channel_id c |}.

Definition with_keep_alive (k : option string) (c : client) : client :=
  {| min_db_100 := min_db_100 c; max_db_100 := max_db_100 c;
     reader := reader c; writer := writer c;
     listen_task := listen_task c; callbacks := callbacks c;
     is_connected := is_connected c;
     keep_alive_channel_id := k |}.

Definition modify (f : client -> client) : M unit :=
  c <- get_self ;; set_self (f c).

(** *** The dict [self._callbacks] *)

Fixpoint lookup (d : list (string * list callback)) (k : string)
    : option (list callback) :=
  match d with
  | [] => None
  | (k', v) :: rest => if String.eqb k k' then Some v else lookup rest k
  end.

(** [k in d]. *)
Definition contains (d : list (string * list callback)) (k : string) : bool :=
  match lookup d k with Some _ => true | None => false end.

(** [d[k]]. *)
Definition dict_get (d : list (string * list callback)) (k : string)
    : exn + list callback :=
  match lookup d k with
  | Some v => inr v
  | None => inl (OtherException "KeyError"%string)
  end.

(** The keys in iteration (insertion) order. *)
Definition keys (d : list (string * list callback)) : list string := map fst d.

(** [d[k].append(cb)] for a key that is present. *)
Fixpoint append_at (d : list (string * list callback)) (k : string) (cb : callback)
    : list (string * list callback) :=
  match d with
  | [] => []
  | (k', v) :: rest =>
      if String.eqb k k' then (k', v ++ [cb]) :: rest
      else (k', v) :: append_at rest k cb
  end.

(** *** Loops, callbacks and the socket *)

(** [for x in xs: body(x)]; an exception leaves the loop. *)
Fixpoint for_each {A : Type} (xs : list A) (body : A -> M unit) : M unit :=
  match xs with
  | [] => ret tt
  | x :: rest => body x ;;; for_each rest body
  end.

(** [callback(p)]: the call is made, then the callable may raise. *)
Definition call (cb : callback) (p : patch) : M unit :=
  fun w =>
    let w' := {| self := self w; calls := calls w ++ [(cb_id cb, p)];
                 wire := wire w; faults := faults w |} in
    match cb_body cb p with
    | Some e => (inl e, w')
    | None => (inr tt, w')
    end.

(** [self._writer.write(data); await self._writer.drain()]. *)
Definition write_and_drain (data : string) : M unit :=
  fun w =>
    match faults w with
    | Some e :: rest =>
        (inl e, {| self := self w; calls := calls w; wire := wire w; faults := rest |})
    | None :: rest =>
        (inr tt, {| self := self w; calls := calls w;
                    wire := wire w ++ [data]; faults := rest |})
    | [] =>
        (inr tt, {| self := self w; calls := calls w;
                    wire := wire w ++ [data]; faults := [] |})
    end.

Definition is_some {A : Type} (x : option A) : bool :=
  match x with Some _ => true | None => false end.

Definition available_patch (b : bool) : patch :=
  {| available := Some b; power := None; mute := None; volume := None |}.

(** *** Lines 172-177 *)
Definition _notify_availability (avail : bool) : M unit :=
  c <- get_self ;;
  for_each (keys (callbacks c)) (fun channel_id =>
    cbs <- lift (dict_get (callbacks c) channel_id) ;;
    for_each cbs (fun cb => call cb (available_patch avail))).

(** *** Lines 75-92.  Cancelling the listener and closing the writer
    (whose errors are swallowed) leave no trace in the state beyond the
    attributes reset here. *)
Definition _close_connection : M unit :=
  modify (with_listen_task false) ;;;
  modify (with_transport None None) ;;;
  c <- get_self ;;
  if is_connected c
  then modify (with_is_connected false) ;;; _notify_availability false
  else ret tt.

(** *** Lines 272-285.  The lock only orders concurrent senders; the
    embedding runs one method at a time. *)
Definition _send_command (command : string) : M unit :=
  c <- get_self ;;
  if negb (is_connected c) || negb (is_some (writer c))
  then ret tt
  else try_except (write_and_drain command)
                  isinstance_OSError
                  (fun _ => _close_connection).

Definition get_command (path_id channel_id : string) : string :=
  ("get MTX:mem_512/" ++ path_id ++ "/0/" ++ channel_id ++ "/0/0/0 0 0" ++ newline)%string.

Definition set_command (path_id channel_id : string) (value : Z) : string :=
  ("set MTX:mem_512/" ++ path_id ++ "/0/" ++ channel_id ++ "/0/0/0 0 0 "
    ++ str_of_int value ++ newline)%string.

(** *** Lines 287-295 (the 0.1 s pause after each command is a pure
    delay). *)
Definition async_query_channel_state (channel_id : string) : M unit :=
  let commands :=
    [get_command PATH_ID_POWER channel_id; get_command PATH_ID_VOLUME channel_id] in
  for_each commands (fun cmd => _send_command cmd).


(** *** Lines 302-305 *)
Definition async_set_mute (channel_id : string) (is_muted : bool) : M unit :=
  if negb is_muted then ret tt
  else _send_command (set_command PATH_ID_VOLUME channel_id Const.AMP_MUTE_VALUE).

(** *** Lines 307-311 *)
Definition async_set_volume (channel_id : string) (ha_volume : Q) : M unit :=
  c <- get_self ;;
  let amp_volume := Volume.amp_volume (min_db_100 c) (max_db_100 c) ha_volume in
  _send_command (set_command PATH_ID_VOLUME channel_id amp_volume).

(** *** Lines 224-238 *)
Definition register_callback (channel_id : string) (cb : callback) : M unit :=
  c <- get_self ;;
  (if negb (contains (callbacks c) channel_id)
   then modify (with_callbacks (callbacks c ++ [(channel_id, [])]))
   else ret tt) ;;;
  c <- get_self ;;
  modify (with_callbacks (append_at (callbacks c) channel_id cb)) ;;;
  c <- get_self ;;
  (if negb (truthy_str (keep_alive_channel_id c))
   then modify (with_keep_alive (Some channel_id))
   else ret tt) ;;;
  c <- get_self ;;
  if is_connected c
  then call cb (available_patch true) ;;; async_query_channel_state channel_id
  else ret tt.

(** [update_data[key] = b] for each of the keys the parser sets. *)
Definition set_power (b : bool) (p : patch) : patch :=
  {| available := available p; power := Some b; mute := mute p; volume := volume p |}.

Definition set_mute (b : bool) (p : patch) : patch :=
  {| available := available p; power := power p; mute := Some b; volume := volume p |}.

Definition set_volume (v : Q) (p : patch) : patch :=
  {| available := available p; power := power p; mute := mute p; volume := Some v |}.

(** Lines 250-254: [update_data] on the power path. *)
Definition power_patch (value : Z) : patch := set_power (value =? 1) empty_patch.

(** Lines 250-257: [update_data] for the mute sentinel. *)
Definition muted_patch : patch := set_mute true empty_patch.

(** Lines 250-262: [update_data] for any other volume value. *)
Definition volume_patch (v : Q) : patch := set_volume v (set_mute false empty_patch).

(** Lines 265-267. *)
Definition fan_out (channel_id : string) (update_data : patch) : M unit :=
  if patch_truthy update_data
  then
    c <- get_self ;;
    cbs <- lift (dict_get (callbacks c) channel_id) ;;
    for_each cbs (fun cb => call cb update_data)
  else ret tt.

(** Lines 243-267: the body of the [try]. *)
Definition process_body (message : string) : M unit :=
  let parts := split message in
  field <- lift (getitem parts 2) ;;
  let address_path := split_on "/" field in
  command_id <- lift (getitem address_path 1) ;;
  channel_id <- lift (getitem address_path 3) ;;
  c <- get_self ;;
  if negb (contains (callbacks c) channel_id) then ret tt
  else
    literal <- lift (getitem parts 5) ;;
    value <- lift (int_of_str literal) ;;
    if String.eqb command_id PATH_ID_POWER then
      fan_out channel_id (power_patch value)
    else if String.eqb command_id PATH_ID_VOLUME then
      if value =? Const.AMP_MUTE_VALUE then
        fan_out channel_id muted_patch
      else
        v <- lift (Volume.normalized (min_db_100 c) (max_db_100 c) value) ;;
        fan_out channel_id (volume_patch v)
    else ret tt.

(** *** Lines 240-270 *)
Definition _process_message (message : string) : M unit :=
  try_except (process_body message)
             (fun e => isinstance_IndexError e || isinstance_ValueError e)
             (fun _ => ret tt).

(** What the network does during one connection attempt: the outcome of
    [open_connection] and of the [readline] that follows the handshake
    command. *)
Inductive open_result : Type :=
| Open_failed                    (* refused, OS error or timeout *)
| Opened (handle : nat).

Inductive read_result : Type :=
| Read_failed (e : exn)          (* raised by [wait_for(readline)] *)
| Read_undecodable               (* bytes outside ASCII *)
| Read_line (text : string).     (* the decoded line *)

Definition readline_decoded (r : read_result) : M string :=
  match r with
  | Read_failed e => raise e
  | Read_undecodable => raise UnicodeDecodeError
  | Read_line text => ret text
  end.

(** Line 151. *)
Definition handshake_cmd : string := ("devstatus runmode" ++ newline)%string.

(** *** Lines 139-170 *)
Definition _connect_and_handshake (o : open_result) (r : read_result) : M bool :=
  match o with
  | Open_failed => ret false
  | Opened h =>
      modify (with_transport (Some h) (Some h)) ;;;
      try_except
        (write_and_drain handshake_cmd ;;;
         response <- readline_decoded r ;;
         if String.eqb (strip response) HANDSHAKE_RESPONSE then
           modify (with_is_connected true) ;;;
           _notify_availability true ;;;
           c <- get_self ;;
           for_each (keys (callbacks c)) async_query_channel_state ;;;
           ret true
         else
           _close_connection ;;; ret false)
        (fun e => isinstance_TimeoutError e || isinstance_OSError e)
        (fun _ => _close_connection ;;; ret false)
  end.

(** *** Vocabulary for statements about [_process_message] *)

(** The line reads as an update of [command_id] on [channel_id] carrying
    [value]: it has a third field whose slash-separated pieces 1 and 3
    are the two ids, and a sixth field that [int] accepts. *)
Definition addressed (message command_id channel_id : string) (value : Z) : Prop :=
  exists field literal,
    getitem (split message) 2 = inr field
    /\ getitem (split_on "/" field) 1 = inr command_id
    /\ getitem (split_on "/" field) 3 = inr channel_id
    /\ getitem (split message) 5 = inr literal
    /\ int_of_str literal = inr value.

(** The sixth field is missing, or [int] rejects it. *)
Definition value_unreadable (message : string) : Prop :=
  (List.length (split message) < 6)%nat
  \/ exists literal,
       nth_error (split message) 5 = Some literal
       /\ int_of_str literal = inl ValueError.

(** The callbacks of every channel, in the order in which
    [_notify_availability] meets them. *)
Definition all_callbacks (d : list (string * list callback)) : list callback :=
  flat_map (fun k => match lookup d k with Some v => v | None => [] end) (keys d).

(** The callbacks a loop over [cbs] reaches when called with [p]: all of
    them up to and including the first that raises. *)
Fixpoint reached (cbs : list callback) (p : patch) : list callback :=
  match cbs with
  | [] => []
  | cb :: rest =>
      cb :: match cb_body cb p with
            | Some _ => []
            | None => reached rest p
            end
  end.

(** How such a loop ends: with the first exception raised, if any. *)
Fixpoint first_raise (cbs : list callback) (p : patch) : exn + unit :=
  match cbs with
  | [] => inr tt
  | cb :: rest =>
      match cb_body cb p with
      | Some e => inl e
      | None => first_raise rest p
      end
  end.

(** The world with [cs] added to the call log. *)
Definition logged (cs : list (nat * patch)) (w : world) : world :=
  {| self := self w; calls := calls w ++ cs; wire := wire w; faults := faults w |}.

(** The world after [lines] went out, each consuming one outcome. *)
Definition sent (lines : list string) (w : world) : world :=
  {| self := self w; calls := calls w;
     wire := wire w ++ lines;
     faults := skipn (List.length lines) (faults w) |}.

(** The world with the client replaced by [f] of it. *)
Definition updated (f : client -> client) (w : world) : world :=
  {| self := f (self w); calls := calls w; wire := wire w; faults := faults w |}.

(** The entries that calling [cbs] with [p] adds to the call log. *)
Definition entries (cbs : list callback) (p : patch) : list (nat * patch) :=
  map (fun cb => (cb_id cb, p)) cbs.

(** No callback in [cbs] raises on [p]. *)
Definition quiet_on (cbs : list callback) (p : patch) : Prop :=
  Forall (fun cb => cb_body cb p = None) cbs.


(** Every coming write succeeds. *)
Definition healthy (fs : list (option exn)) : Prop := Forall (fun f => f = None) fs.

End Client.

(** ** api.py: the reconnection loop of [_connection_manager] *)

Module Manager.

(** What one turn of the [while True] loop (lines 98-136) meets. *)
Inductive turn : Type :=
| Already_connected      (* [self._is_connected] holds at line 101 *)
| Handshake_succeeded    (* [_connect_and_handshake] returned [True];
                            the turn ends when the listener does *)
| Handshake_failed       (* [_connect_and_handshake] returned [False] *)
| Unexpected_error       (* an exception reached [except Exception] *)
| Cancelled.             (* [CancelledError] reached line 129 *)

(** The loop's local variable, the sleeps it has performed (oldest
    first), and whether it is still running. *)
Record state : Type := {
  reconnect_delay : Z;
  sleeps : list Z;
  running : bool
}.

(** Line 97. *)
Definition start : state :=
  {| reconnect_delay := Const.RECONNECT_DELAY_INITIAL; sleeps := []; running := true |}.

Definition sleep (d : Z) (s : state) : state :=
  {| reconnect_delay := reconnect_delay s; sleeps := sleeps s ++ [d]; running := running s |}.

Definition set_delay (d : Z) (s : state) : state :=
  {| reconnect_delay := d; sleeps := sleeps s; running := running s |}.

(** One turn of the loop. *)
Definition step (s : state) (t : turn) : state :=
  if negb (running s) then s
  else
    match t with
    | Already_connected => sleep 5 s
    | Handshake_succeeded => set_delay Const.RECONNECT_DELAY_INITIAL s
    | Handshake_failed =>
        let s' := sleep (reconnect_delay s) s in
        set_delay (Z.min (reconnect_delay s' * 2) Const.RECONNECT_DELAY_MAX) s'
    | Unexpected_error => sleep (reconnect_delay s) s
    | Cancelled =>
        {| reconnect_delay := reconnect_delay s; sleeps := sleeps s; running := false |}
    end.

Definition run (s : state) (ts : list turn) : state := fold_left step ts s.

(** The delay the specification announces after [n] failures. *)
Definition announced_delay (n : nat) : Z := Z.min (5 * 2 ^ Z.of_nat n) 60.

End Manager.

(** ** media_player.py: [XmvMediaPlayer] *)

Module MediaPlayer.

Import Py Api.
Local Open Scope py_scope.

Inductive MediaPlayerState : Type := ON | OFF.

(** The attributes set in [__init__] (lines 41-62) that the methods
    below read or write. *)
Record entity : Type := {
  channel_id : string;
  attr_available : bool;
  attr_state : option MediaPlayerState;
  attr_volume_level : option Q;
  attr_is_volume_muted : option bool;
  pre_mute_volume : option Q
}.

Definition init (channel : string) : entity :=
  {| channel_id := channel;
     attr_available := false;
     attr_state := None;
     attr_volume_level := None;
     attr_is_volume_muted := None;
     pre_mute_volume := None |}.

Definition or_keep {A : Type} (new : option A) (old : A) : A :=
  match new with Some a => a | None => old end.

Definition or_keep_opt {A : Type} (new old : option A) : option A :=
  match new with Some a => Some a | None => old end.

(** Lines 65-83: [_handle_update]. *)
Definition _handle_update (update_data : patch) (e : entity) : entity :=
  {| channel_id := channel_id e;
     attr_available := or_keep (available update_data) (attr_available e);
     attr_state :=
       or_keep_opt
         (option_map (fun p : bool => if p then ON else OFF) (power update_data))
         (attr_state e);
     attr_volume_level := or_keep_opt (volume update_data) (attr_volume_level e);
     attr_is_volume_muted := or_keep_opt (mute update_data) (attr_is_volume_muted e);
     pre_mute_volume := pre_mute_volume e |}.

Definition save_pre_mute (e : entity) : entity :=
  {| channel_id := channel_id e;
     attr_available := attr_available e;
     attr_state := attr_state e;
     attr_volume_level := attr_volume_level e;
     attr_is_volume_muted := attr_is_volume_muted e;
     pre_mute_volume := attr_volume_level e |}.

(** The methods below first update the entity, which never depends on
    the client, and then call into the client: each returns the entity
    it leaves and the call it awaits. *)

(** Lines 99-100. *)
Definition async_set_volume_level (volume : Q) (e : entity) : entity * M unit :=
  (e, Client.async_set_volume (channel_id e) volume).

(** Lines 102-108. *)
Definition async_mute_volume (mute : bool) (e : entity) : entity * M unit :=
  if mute then
    let e' := save_pre_mute e in
    (e', Client.async_set_mute (channel_id e') true)
  else
    let volume_to_restore := or_else (pre_mute_volume e) (1 # 2) in
    async_set_volume_level volume_to_restore e.

(** The entity after a run of updates delivered by the client. *)
Definition handle_updates (updates : list patch) (e : entity) : entity :=
  fold_left (fun x p => _handle_update p x) updates e.

End MediaPlayer.

(** ** Concrete clients used in examples *)

Module Fixtures.

Import Py Api.

(** A callback that returns normally, and one that raises [e]. *)
Definition quiet (n : nat) : callback := {| cb_id := n; cb_body := fun _ => None |}.
Definition failing (n : nat) (e : exn) : callback :=
  {| cb_id := n; cb_body := fun _ => Some e |}.

(** A client built with the default bounds (-80 dB, 0 dB) holding the
    registry [d]. *)
Definition offline (d : list (string * list callback)) : world :=
  {| self := Client.with_callbacks d (Api.init (-80) 0);
     calls := []; wire := []; faults := [] |}.

(** The same client with connection 1 open and the handshake done. *)
Definition online (d : list (string * list callback)) : world :=
  {| self := Client.with_is_connected true
               (Client.with_transport (Some 1%nat) (Some 1%nat)
                  (Client.with_callbacks d (Api.init (-80) 0)));
     calls := []; wire := []; faults := [] |}.

(** A connected client whose two bounds are both -40 dB. *)
Definition flat (d : list (string * list callback)) : world :=
  {| self := Client.with_is_connected true
               (Client.with_transport (Some 1%nat) (Some 1%nat)
                  (Client.with_callbacks d (Api.init (-40) (-40))));
     calls := []; wire := []; faults := [] |}.

(** A connected client whose next write fails with a broken pipe. *)
Definition broken_pipe (d : list (string * list callback)) : world :=
  {| self := Client.with_is_connected true
               (Client.with_transport (Some 1%nat) (Some 1%nat)
                  (Client.with_callbacks d (Api.init (-80) 0)));
     calls := []; wire := []; faults := [Some BrokenPipeError] |}.

(** Channel 4 with two callbacks, the first of which raises [e]. *)
Definition two_listeners (e : exn) : list (string * list callback) :=
  [("4"%string, [failing 0 e; quiet 1])].

(** Channels 4 and 6 with well-behaved callbacks. *)
Definition two_zones : list (string * list callback) :=
  [("4"%string, [quiet 0; quiet 1]); ("6"%string, [quiet 2])].

(** The entity of channel 4 once the client has reported volume 0.0. *)
Definition silent_zone : MediaPlayer.entity :=
  MediaPlayer._handle_update (Client.volume_patch 0) (MediaPlayer.init "4").

Definition power_on_line : string := "NOTIFY set MTX:mem_512/60003/0/4/0/0/0 0 0 1".
Definition volume_line : string := "OK get MTX:mem_512/60002/0/4/0/0/0 0 0 -8000".
Definition mute_line : string := "OK get MTX:mem_512/60002/0/4/0/0/0 0 0 -13801".
Definition short_line : string := "OK get MTX:mem_512/60002/0/4/0/0/0 0 0".
Definition garbled_line : string := "OK get MTX:mem_512/60002/0/4/0/0/0 0 0 loud".

End Fixtures.

(** ** Vocabulary for statements about sessions *)

Module Session.

Import Py Api.

(** The part of the client that only [__init__] and [register_callback]
    write: the bounds, the registry and the keep-alive channel. *)
Definition same_registry (w w' : world) : Prop :=
  min_db_100 (self w') = min_db_100 (self w)
  /\ max_db_100 (self w') = max_db_100 (self w)
  /\ callbacks (self w') = callbacks (self w)
  /\ keep_alive_channel_id (self w') = keep_alive_channel_id (self w).

(** No connection is held and the flag is down. *)
Definition closed (c : client) : Prop :=
  is_connected c = false /\ reader c = None /\ writer c = None /\ listen_task c = false.

(** A reply that [_connect_and_handshake] answers with [False]: a line
    other than the expected one, or a read that times out or fails with an
    OS error. *)
Definition refused (r : Client.read_result) : Prop :=
  match r with
  | Client.Read_line text => strip text <> HANDSHAKE_RESPONSE
  | Client.Read_failed e => isinstance_TimeoutError e || isinstance_OSError e = true
  | Client.Read_undecodable => False
  end.


(** A client just built, before any registration, with the write
    outcomes [fs] ahead of it. *)
Definition fresh (min_db max_db : Z) (fs : list (option exn)) : world :=
  {| self := Api.init min_db max_db; calls := []; wire := []; faults := fs |}.

(** A method that leaves the registry as it found it, however it ends. *)
Definition keeps_registry {A : Type} (m : M A) : Prop :=
  forall w, same_registry w (snd (m w)).

End Session.

(** ** api.py: the listener, the keep-alive pulse and the probe *)

Module Listener.

Import Py Api Client.
Local Open Scope py_scope.

(** What one [await self._reader.readline()] of [_listen] meets. *)
Inductive read_event : Type :=
| Data (text : string)       (* bytes that decode as ASCII; empty at end of stream *)
| Undecodable                (* bytes, not empty, outside ASCII *)
| Read_raised (e : exn)      (* [readline] raised *)
| Task_cancelled.            (* [CancelledError] at the [await] *)

(** How a run of [_listen] over the events supplied so far stands. *)
Inductive listen_status : Type :=
| Waiting                    (* blocked in [readline] *)
| Stopped.                   (* the loop was left *)

(** Line 193. *)
Definition recognised (message : string) : bool :=
  String.prefix "OK get" message
  || String.prefix "OK set" message
  || String.prefix "NOTIFY set" message.

(** Lines 184-194: the body of the [try]; [true] when the loop goes on. *)
Definition listen_body (ev : read_event) : M bool :=
  match ev with
  | Read_raised e => raise e
  | Undecodable => raise UnicodeDecodeError
  | Task_cancelled => ret false
  | Data text =>
      if is_empty text
      then _close_connection ;;; ret false
      else
        let message := strip text in
        (if recognised message then _process_message message else ret tt) ;;;
        ret true
  end.

Definition isinstance_ConnectionResetError (e : exn) : bool :=
  match e with ConnectionResetError => true | _ => false end.

(** Lines 183-204: one turn of the loop with its two handlers; a
    cancellation and a connection reset leave the loop and nothing else,
    any other exception closes the session first. *)
Definition listen_turn (ev : read_event) : M bool :=
  fun w =>
    match listen_body ev w with
    | (inr go_on, w') => (inr go_on, w')
    | (inl e, w') =>
        if isinstance_ConnectionResetError e then (inr false, w')
        else (_close_connection ;;; ret false) w'
    end.

(** Lines 179-204. *)
Fixpoint _listen (events : list read_event) : M listen_status :=
  fun w =>
    if is_connected (self w) && is_some (reader (self w))
    then
      match events with
      | [] => (inr Waiting, w)
      | ev :: rest =>
          match listen_turn ev w with
          | (inr true, w') => _listen rest w'
          | (inr false, w') => (inr Stopped, w')
          | (inl e, w') => (inl e, w')
          end
      end
    else (inr Stopped, w).


(** Lines 17-37: the static [test_connection].  [write] is the outcome of
    the write-and-drain, [close] that of [wait_closed] in the [finally],
    which runs only when a writer was obtained and whose exception, if
    any, replaces the result. *)
Definition test_connection
    (o : open_result) (write : option exn) (r : read_result) (close : option exn)
    : exn + bool :=
  match o with
  | Open_failed => inr false
  | Opened _ =>
      let answer :=
        match write, r with
        | None, Read_line text => String.eqb (strip text) HANDSHAKE_RESPONSE
        | _, _ => false
        end in
      match close with
      | Some e => inl e
      | None => inr answer
      end
  end.

End Listener.

(** ** Vocabulary for statements about the reconnection loop *)

Module Supervisor.

Import Manager.

(** The delay and every sleep performed lie between the initial delay and
    the ceiling. *)
Definition within_bounds (s : state) : Prop :=
  5 <= reconnect_delay s <= 60 /\ Forall (fun d => 5 <= d <= 60) (sleeps s).

End Supervisor.

(** ** Vocabulary for statements about text *)

Module Text.

Import Py.

Fixpoint all_chars (ok : ascii -> bool) (s : string) : bool :=
  match s with
  | EmptyString => true
  | String c rest => ok c && all_chars ok rest
  end.

(** No whitespace character occurs in [s]. *)
Definition nospace (s : string) : bool := all_chars (fun c => negb (isspace c)) s.

(** The character [sep] does not occur in [s]. *)
Definition free_of (sep : ascii) (s : string) : bool :=
  all_chars (fun c => negb (Ascii.eqb c sep)) s.

(** The number a string of decimal digits denotes, continuing from [acc]. *)
Fixpoint uint_value (d : Decimal.uint) (acc : Z) : Z :=
  match d with
  | Decimal.Nil => acc
  | Decimal.D0 d => uint_value d (10 * acc)
  | Decimal.D1 d => uint_value d (10 * acc + 1)
  | Decimal.D2 d => uint_value d (10 * acc + 2)
  | Decimal.D3 d => uint_value d (10 * acc + 3)
  | Decimal.D4 d => uint_value d (10 * acc + 4)
  | Decimal.D5 d => uint_value d (10 * acc + 5)
  | Decimal.D6 d => uint_value d (10 * acc + 6)
  | Decimal.D7 d => uint_value d (10 * acc + 7)
  | Decimal.D8 d => uint_value d (10 * acc + 8)
  | Decimal.D9 d => uint_value d (10 * acc + 9)
  end.

(** The text is empty or begins with a character that is not
    whitespace. *)
Definition starts_clean (s : string) : bool :=
  match s with
  | EmptyString => true
  | String c _ => negb (isspace c)
  end.

(** The third field of a command line, as the f-strings of lines 290-310
    lay it out. *)
Definition address (path_id channel_id : string) : string :=
  String.concat "/" ["MTX:mem_512"; path_id; "0"; channel_id; "0"; "0"; "0"]%string.

(** The line an amplifier sends back for a command it accepted: [OK]
    and the command. *)
Definition acknowledged (command : string) : string := ("OK " ++ command)%string.

(** The line an amplifier sends to tell of a command another controller
    issued: [NOTIFY] and the command. *)
Definition notified (command : string) : string := ("NOTIFY " ++ command)%string.

End Text.

(** ** config_flow.py: the channel table *)

Module ConfigFlow.

Import Py.

Definition DEFAULT_CHANNELS : string := "4:Zone1,6:Zone2".

(** [sep in s] for a one-character [sep]. *)
Definition contains_char (sep : ascii) (s : string) : bool := negb (Text.free_of sep s).

(** [s.split(sep, 1)]: at most one cut, at the first [sep]. *)
Fixpoint split_once_from (sep : ascii) (cur s : string) : list string :=
  match s with
  | EmptyString => [cur]
  | String c rest =>
      if Ascii.eqb c sep then [cur; rest]
      else split_once_from sep (snoc cur c) rest
  end.

Definition split_once (sep : ascii) (s : string) : list string :=
  split_once_from sep EmptyString s.

(** [a, b = xs]. *)
Definition unpack2 (xs : list string) : exn + (string * string) :=
  match xs with
  | [a; b] => inr (a, b)
  | _ => inl ValueError
  end.

(** [d[k] = v] on a dict kept in insertion order: a key already present
    keeps its place. *)
Fixpoint dict_set (d : list (string * string)) (k v : string) : list (string * string) :=
  match d with
  | [] => [(k, v)]
  | (k', v') :: rest =>
      if String.eqb k k' then (k', v) :: rest
      else (k', v') :: dict_set rest k v
  end.

(** Lines 46-50: the loop over the pairs. *)
Fixpoint parse_pairs (pairs : list string) (parsed : list (string * string))
    : exn + list (string * string) :=
  match pairs with
  | [] => inr parsed
  | item :: rest =>
      if negb (contains_char ":" item) then inl ValueError
      else
        match unpack2 (split_once ":" item) with
        | inl e => inl e
        | inr (channel_id, name) =>
            parse_pairs rest (dict_set parsed (strip channel_id) (strip name))
        end
  end.

(** Lines 43-52: the body of the [try] in [validate_input]. *)
Definition parse_channels (channels : string) : exn + list (string * string) :=
  match parse_pairs (split_on "," channels) [] with
  | inl e => inl e
  | inr parsed =>
      match parsed with
      | [] => inl ValueError
      | _ :: _ => inr parsed
      end
  end.

(** Lines 23-25 of [build_schema]: the text shown for a channel table. *)
Definition channels_str (channels : list (string * string)) : string :=
  let joined :=
    String.concat "," (map (fun kv => (fst kv ++ ":" ++ snd kv)%string) channels) in
  if is_empty joined then DEFAULT_CHANNELS else joined.

(** The errors [validate_input] raises, and an exception of the probe
    that it lets through. *)
Inductive flow_error : Type :=
| CannotConnect
| InvalidChannels
| Uncaught (e : exn).

(** Lines 36-64: [validate_input], given what [test_connection] did;
    of the validated data only the channel table is computed, the other
    entries being copied. *)
Definition validate_input (probe : exn + bool) (channels : string)
    : flow_error + list (string * string) :=
  match probe with
  | inl e => inl (Uncaught e)
  | inr false => inl CannotConnect
  | inr true =>
      match parse_channels channels with
      | inl _ => inl InvalidChannels
      | inr parsed => inr parsed
      end
  end.

(** An entry that shows in the form as it is stored: id and name
    stripped and free of commas, id free of colons. *)
Definition presentable (kv : string * string) : Prop :=
  Text.free_of "," (fst kv) = true
  /\ Text.free_of ":" (fst kv) = true
  /\ strip (fst kv) = fst kv
  /\ Text.free_of "," (snd kv) = true
  /\ strip (snd kv) = snd kv.

(** Line 23: [f"{k}:{v}"]. *)
Definition shown (kv : string * string) : string := (fst kv ++ ":" ++ snd kv)%string.

(** Ids and names carry no surrounding whitespace. *)
Definition stripped (kv : string * string) : Prop :=
  strip (fst kv) = fst kv /\ strip (snd kv) = snd kv.

End ConfigFlow.

(** * Properties *)

Example split_reply :
  Py.split "OK get MTX:mem_512/60002/0/4/0/0/0 0 0 -8000"
  = ["OK"; "get"; "MTX:mem_512/60002/0/4/0/0/0"; "0"; "0"; "-8000"]%string.
Proof. reflexivity. Qed.

Example split_on_path :
  Py.split_on "/" "MTX:mem_512/60002/0/4/0/0/0"
  = ["MTX:mem_512"; "60002"; "0"; "4"; "0"; "0"; "0"]%string.
Proof. reflexivity. Qed.

Example int_examples :
  Py.int_of_str "-13801" = inr (-13801)
  /\ Py.int_of_str "+1_000" = inr 1000
  /\ Py.int_of_str "1__0" = inl Py.ValueError
  /\ Py.int_of_str "" = inl Py.ValueError
  /\ Py.int_of_str "-" = inl Py.ValueError
  /\ Py.int_of_str "1.0" = inl Py.ValueError
  /\ Py.int_of_str "007" = inr 7.
Proof. repeat split; reflexivity. Qed.

Example strip_example :
  Py.strip (" a b  " ++ Py.newline) = "a b"%string.
Proof. reflexivity. Qed.

(** ** Truncation, floor and ceiling *)

Section Truncation.

Local Open Scope Q_scope.










End Truncation.

(** ** Volume conversions *)

Section VolumeConversions.

Local Open Scope Q_scope.


Lemma normalized_nondegenerate (lo hi value : Z) :
  (lo <> hi)%Z ->
  Volume.normalized lo hi value
  = inr (Volume.clamp (inject_Z (value - lo) / inject_Z (hi - lo))).
Proof.
  intros H. unfold Volume.normalized, Volume.ha_volume, Py.truediv.
  destruct (Z.eqb_spec (hi - lo) 0) as [E | E]; [lia | reflexivity].
Qed.

Lemma normalized_degenerate (b value : Z) : Volume.normalized b b value = inr 1.
Proof.
  unfold Volume.normalized, Volume.ha_volume.
  rewrite Z.sub_diag. reflexivity.
Qed.

Lemma normalized_total (lo hi value : Z) :
  exists v, Volume.normalized lo hi value = inr v.
Proof.
  destruct (Z.eq_dec lo hi) as [-> | H].
  - rewrite normalized_degenerate. eauto.
  - rewrite normalized_nondegenerate by assumption. eauto.
Qed.

End VolumeConversions.


(** In that example the rounding rule for ties plays no part: 31 is the
    only integer within one half of 31.25. *)
Lemma nearest_integer_example (n : Z) :
  Volume.nearest_integer ((1 # 256) * inject_Z (0 - -8000)) n -> n = 31.
Proof.
  unfold Volume.nearest_integer. intros H.
  apply Qabs_Qle_condition in H. destruct H as [H1 H2].
  change (inject_Z (0 - -8000)) with 8000%Q in H1, H2.
  assert (inject_Z 30 < inject_Z n)%Q as A by (change (inject_Z 30) with 30%Q; lra).
  assert (inject_Z n < inject_Z 32)%Q as B by (change (inject_Z 32) with 32%Q; lra).
  rewrite <- Zlt_Qlt in A, B. lia.
Qed.






(** ** Loops over callbacks *)

Section CallbackLoops.

Import Py Api Client.

Lemma logged_nil (w : world) : logged [] w = w.
Proof. destruct w; unfold logged; simpl. rewrite app_nil_r. reflexivity. Qed.

Lemma logged_logged (a b : list (nat * patch)) (w : world) :
  logged b (logged a w) = logged (a ++ b) w.
Proof. unfold logged; simpl. rewrite app_assoc. reflexivity. Qed.

(** The loop over the callbacks of one channel. *)
Lemma for_each_call (cbs : list callback) (p : patch) (w : world) :
  for_each cbs (fun cb => call cb p) w
  = (first_raise cbs p, logged (entries (reached cbs p) p) w).
Proof.
  revert w. induction cbs as [| cb rest IH]; intros w.
  - simpl. rewrite logged_nil. reflexivity.
  - simpl. unfold bind, call.
    destruct (cb_body cb p) as [e |].
    + reflexivity.
    + fold (logged [(cb_id cb, p)] w). rewrite IH, logged_logged. reflexivity.
Qed.

Lemma reached_quiet (cbs : list callback) (p : patch) :
  quiet_on cbs p -> reached cbs p = cbs /\ first_raise cbs p = inr tt.
Proof.
  induction 1 as [| cb rest Hcb _ [IH1 IH2]]; simpl.
  - auto.
  - rewrite Hcb, IH1, IH2. auto.
Qed.

Lemma reached_app (a b : list callback) (p : patch) :
  reached (a ++ b) p
  = match first_raise a p with
    | inr _ => a ++ reached b p
    | inl _ => reached a p
    end.
Proof.
  induction a as [| cb rest IH]; simpl.
  - reflexivity.
  - destruct (cb_body cb p); [reflexivity |].
    rewrite IH. destruct (first_raise rest p); reflexivity.
Qed.

Lemma first_raise_app (a b : list callback) (p : patch) :
  first_raise (a ++ b) p
  = match first_raise a p with
    | inr _ => first_raise b p
    | inl e => inl e
    end.
Proof.
  induction a as [| cb rest IH]; simpl.
  - reflexivity.
  - destruct (cb_body cb p); [reflexivity | exact IH].
Qed.

Lemma reached_first_raise_ok (a : list callback) (p : patch) :
  (exists u, first_raise a p = inr u) -> reached a p = a.
Proof.
  induction a as [| cb rest IH]; simpl; [reflexivity |].
  destruct (cb_body cb p); intros [u H]; [discriminate |].
  rewrite IH by eauto. reflexivity.
Qed.

Lemma lookup_keys (d : list (string * list callback)) (k : string) :
  In k (keys d) -> exists v, lookup d k = Some v.
Proof.
  induction d as [| [k' v'] rest IH]; simpl; [tauto |].
  intros [-> | H].
  - rewrite String.eqb_refl. eauto.
  - destruct (String.eqb k k'); eauto.
Qed.

(** The nested loop of [_notify_availability], over any keys that are
    all present in the dict. *)
Lemma for_each_channel (d : list (string * list callback)) (p : patch)
    (ks : list string) (w : world) :
  (forall k, In k ks -> exists v, lookup d k = Some v) ->
  let cbs := flat_map (fun k => match lookup d k with Some v => v | None => [] end) ks in
  for_each ks (fun channel_id =>
    bind (lift (dict_get d channel_id))
         (fun cbs => for_each cbs (fun cb => call cb p))) w
  = (first_raise cbs p, logged (entries (reached cbs p) p) w).
Proof.
  revert w. induction ks as [| k rest IH]; intros w Hks; simpl.
  - rewrite logged_nil. reflexivity.
  - destruct (Hks k (or_introl eq_refl)) as [v Hv].
    unfold bind at 1. unfold dict_get. rewrite Hv. simpl.
    unfold bind at 1. unfold ret at 1. rewrite for_each_call.
    rewrite reached_app, first_raise_app.
    destruct (first_raise v p) as [e | []] eqn:Hfirst.
    + reflexivity.
    + simpl in IH. rewrite IH by (intros; apply Hks; right; assumption).
      rewrite logged_logged. unfold entries. rewrite <- map_app.
      rewrite (reached_first_raise_ok v p) by eauto. reflexivity.
Qed.

Lemma notify_availability_eq (avail : bool) (w : world) :
  let cbs := all_callbacks (callbacks (self w)) in
  let p := available_patch avail in
  _notify_availability avail w
  = (first_raise cbs p, logged (entries (reached cbs p) p) w).
Proof.
  unfold _notify_availability, get_self. unfold bind at 1.
  apply for_each_channel. apply lookup_keys.
Qed.

Lemma fan_out_eq (channel_id : string) (p : patch) (cbs : list callback) (w : world) :
  lookup (callbacks (self w)) channel_id = Some cbs ->
  patch_truthy p = true ->
  fan_out channel_id p w = (first_raise cbs p, logged (entries (reached cbs p) p) w).
Proof.
  intros Hl Hp. unfold fan_out. rewrite Hp.
  unfold get_self, dict_get, bind. rewrite Hl. simpl.
  apply for_each_call.
Qed.

End CallbackLoops.

(** ** Reading a line *)

Section ProcessMessage.

Import Py Api Client.

Lemma bind_lift_inr {A B : Type} (r : exn + A) (a : A) (k : A -> M B) (w : world) :
  r = inr a -> bind (lift r) k w = k a w.
Proof. intros ->. reflexivity. Qed.

Lemma bind_lift_inl {A B : Type} (r : exn + A) (e : exn) (k : A -> M B) (w : world) :
  r = inl e -> bind (lift r) k w = (inl e, w).
Proof. intros ->. reflexivity. Qed.

Lemma bind_get_self {B : Type} (k : client -> M B) (w : world) :
  bind get_self k w = k (self w) w.
Proof. reflexivity. Qed.

Lemma contains_lookup (d : list (string * list callback)) (k : string) (v : list callback) :
  lookup d k = Some v -> contains d k = true.
Proof. unfold contains. intros ->. reflexivity. Qed.

(** What the body of the [try] does with a well-formed line for a
    registered channel. *)
Lemma process_body_addressed
    (message command_id channel_id : string) (value : Z)
    (cbs : list callback) (w : world) :
  addressed message command_id channel_id value ->
  lookup (callbacks (self w)) channel_id = Some cbs ->
  process_body message w
  = (if String.eqb command_id PATH_ID_POWER then
       fan_out channel_id (power_patch value)
     else if String.eqb command_id PATH_ID_VOLUME then
       if value =? Const.AMP_MUTE_VALUE then fan_out channel_id muted_patch
       else
         bind (lift (Volume.normalized (min_db_100 (self w)) (max_db_100 (self w)) value))
              (fun v => fan_out channel_id (volume_patch v))
     else ret tt) w.
Proof.
  intros (field & literal & Hfield & Hcmd & Hch & Hlit & Hint) Hl.
  unfold process_body.
  rewrite (bind_lift_inr _ _ _ _ Hfield).
  rewrite (bind_lift_inr _ _ _ _ Hcmd).
  rewrite (bind_lift_inr _ _ _ _ Hch).
  rewrite bind_get_self.
  rewrite (contains_lookup _ _ _ Hl). cbn [negb].
  rewrite (bind_lift_inr _ _ _ _ Hlit).
  rewrite (bind_lift_inr _ _ _ _ Hint).
  reflexivity.
Qed.

Lemma getitem_error {A : Type} (xs : list A) (i : nat) (e : exn) :
  getitem xs i = inl e -> e = IndexError.
Proof.
  unfold getitem. destruct (nth_error xs i); intros H; inversion H; reflexivity.
Qed.

Lemma getitem_short {A : Type} (xs : list A) (i : nat) :
  (List.length xs <= i)%nat -> getitem xs i = inl IndexError.
Proof.
  intros H. unfold getitem. apply nth_error_None in H. rewrite H. reflexivity.
Qed.

(** A line whose value cannot be read leaves the body of the [try] by
    an [IndexError] or a [ValueError], or by the early return, with the
    world untouched. *)
Lemma process_body_unreadable (message : string) (w : world) :
  value_unreadable message ->
  process_body message w = (inr tt, w)
  \/ process_body message w = (inl IndexError, w)
  \/ process_body message w = (inl ValueError, w).
Proof.
  intros Hbad. unfold process_body.
  destruct (getitem (split message) 2) as [e | field] eqn:Hfield.
  { rewrite (bind_lift_inl _ _ _ _ eq_refl).
    apply getitem_error in Hfield. subst e. auto. }
  rewrite (bind_lift_inr _ _ _ _ eq_refl).
  destruct (getitem (split_on "/" field) 1) as [e | command_id] eqn:Hcmd.
  { rewrite (bind_lift_inl _ _ _ _ eq_refl).
    apply getitem_error in Hcmd. subst e. auto. }
  rewrite (bind_lift_inr _ _ _ _ eq_refl).
  destruct (getitem (split_on "/" field) 3) as [e | channel_id] eqn:Hch.
  { rewrite (bind_lift_inl _ _ _ _ eq_refl).
    apply getitem_error in Hch. subst e. auto. }
  rewrite (bind_lift_inr _ _ _ _ eq_refl).
  rewrite bind_get_self.
  destruct (contains (callbacks (self w)) channel_id); cbn [negb].
  2: { left. reflexivity. }
  destruct Hbad as [Hshort | (literal & Hnth & Hint)].
  - rewrite (bind_lift_inl _ IndexError) by (apply getitem_short; lia). auto.
  - assert (getitem (split message) 5 = inr literal) as Hlit
      by (unfold getitem; rewrite Hnth; reflexivity).
    rewrite (bind_lift_inr _ _ _ _ Hlit).
    rewrite (bind_lift_inl _ _ _ _ Hint). auto.
Qed.

End ProcessMessage.

(** ** Fan-out *)

(** C1 (as stated, refuted).  Channel 4 has two callbacks and the first
    raises: the second is called neither by the fan-out of a parsed power
    update nor by an availability notification, and the exception reaches
    the caller. *)
Lemma fan_out_stops_at_raising_callback :
  Client._process_message Fixtures.power_on_line
    (Fixtures.online (Fixtures.two_listeners (Py.OtherException "RuntimeError")))
  = (inl (Py.OtherException "RuntimeError"),
     Client.logged [(0%nat, Client.power_patch 1)]
       (Fixtures.online (Fixtures.two_listeners (Py.OtherException "RuntimeError"))))
  /\ Client._notify_availability true
       (Fixtures.online (Fixtures.two_listeners (Py.OtherException "RuntimeError")))
     = (inl (Py.OtherException "RuntimeError"),
        Client.logged [(0%nat, Client.available_patch true)]
          (Fixtures.online (Fixtures.two_listeners (Py.OtherException "RuntimeError")))).
Proof. split; reflexivity. Qed.

(** When the first callback raises a [ValueError], the handler of
    [_process_message] swallows it; the second callback is still skipped. *)
Lemma fan_out_swallows_value_error :
  Client._process_message Fixtures.power_on_line
    (Fixtures.online (Fixtures.two_listeners Py.ValueError))
  = (inr tt, Client.logged [(0%nat, Client.power_patch 1)]
               (Fixtures.online (Fixtures.two_listeners Py.ValueError))).
Proof. reflexivity. Qed.

Lemma reached_prefix (cbs : list Api.callback) (p : Api.patch) :
  exists skipped, cbs = Client.reached cbs p ++ skipped.
Proof.
  induction cbs as [| cb rest [skipped IH]]; simpl.
  - exists []. reflexivity.
  - destruct (Api.cb_body cb p).
    + exists rest. reflexivity.
    + exists skipped. simpl. f_equal. exact IH.
Qed.

(** C1 (amended).  Fan-out of a patch, for a parsed update as for an
    availability notification, calls the callbacks in registration order
    up to and including the first one that raises, whose exception ends the
    loop; when no callback raises, every callback is called. *)
Theorem fan_out_until_first_raise
    (channel_id : string) (p : Api.patch) (cbs : list Api.callback) (w : Api.world) :
  Client.lookup (Api.callbacks (Api.self w)) channel_id = Some cbs ->
  Api.patch_truthy p = true ->
  let everyone := Client.all_callbacks (Api.callbacks (Api.self w)) in
  Client.fan_out channel_id p w
  = (Client.first_raise cbs p, Client.logged (Client.entries (Client.reached cbs p) p) w)
  /\ (Client.quiet_on cbs p -> Client.reached cbs p = cbs)
  /\ (forall avail,
        Client._notify_availability avail w
        = (Client.first_raise everyone (Client.available_patch avail),
           Client.logged
             (Client.entries (Client.reached everyone (Client.available_patch avail))
                             (Client.available_patch avail)) w)
        /\ (Client.quiet_on everyone (Client.available_patch avail) ->
            Client.reached everyone (Client.available_patch avail) = everyone)).
Proof.
  intros Hl Hp everyone. split; [| split].
  - apply fan_out_eq; assumption.
  - intros Hq. apply reached_quiet. exact Hq.
  - intros avail. split.
    + apply notify_availability_eq.
    + intros Hq. apply reached_quiet. exact Hq.
Qed.

Lemma fan_out_until_first_raise_witness :
  Client.fan_out "4" (Client.power_patch 1) (Fixtures.online Fixtures.two_zones)
  = (inr tt,
     Client.logged [(0%nat, Client.power_patch 1); (1%nat, Client.power_patch 1)]
       (Fixtures.online Fixtures.two_zones)).
Proof.
  destruct (fan_out_until_first_raise "4" (Client.power_patch 1)
              [Fixtures.quiet 0; Fixtures.quiet 1]
              (Fixtures.online Fixtures.two_zones) eq_refl eq_refl) as [H _].
  exact H.
Defined.

(** ** Parsed updates *)

Lemma process_message_calls (message : string) (w : Api.world) (r : Py.exn + unit)
    (cs : list (nat * Api.patch)) :
  Client.process_body message w = (r, Client.logged cs w) ->
  Api.calls (snd (Client._process_message message w)) = Api.calls w ++ cs
  /\ Api.self (snd (Client._process_message message w)) = Api.self w
  /\ Api.wire (snd (Client._process_message message w)) = Api.wire w.
Proof.
  intros H. unfold Client._process_message, Api.try_except. rewrite H.
  destruct r as [e | u]; [destruct (_ || _) |]; simpl; auto.
Qed.

Lemma process_body_volume
    (message channel_id : string) (value : Z) (cbs : list Api.callback) (w : Api.world) :
  Client.addressed message Api.PATH_ID_VOLUME channel_id value ->
  Client.lookup (Api.callbacks (Api.self w)) channel_id = Some cbs ->
  Client.process_body message w
  = (if value =? Const.AMP_MUTE_VALUE then Client.fan_out channel_id Client.muted_patch
     else
       Api.bind
         (Api.lift (Volume.normalized (Api.min_db_100 (Api.self w))
                                      (Api.max_db_100 (Api.self w)) value))
         (fun v => Client.fan_out channel_id (Client.volume_patch v))) w.
Proof.
  intros Haddr Hl.
  rewrite (process_body_addressed _ _ _ _ _ _ Haddr Hl). reflexivity.
Qed.

(** C5.  A volume-path line for a registered channel whose value is the
    mute sentinel -13801 is fanned out as the patch with mute = true and no
    volume field, whatever dB bounds the client was built with (the world
    [w], and with it the bounds, is arbitrary). *)
Theorem mute_sentinel_patch
    (message channel_id : string) (cbs : list Api.callback) (w : Api.world) :
  Client.addressed message Api.PATH_ID_VOLUME channel_id Const.AMP_MUTE_VALUE ->
  Client.lookup (Api.callbacks (Api.self w)) channel_id = Some cbs ->
  Client.process_body message w = Client.fan_out channel_id Client.muted_patch w
  /\ Api.calls (snd (Client._process_message message w))
     = Api.calls w ++ Client.entries (Client.reached cbs Client.muted_patch) Client.muted_patch
  /\ Api.mute Client.muted_patch = Some true
  /\ Api.volume Client.muted_patch = None.
Proof.
  intros Haddr Hl.
  pose proof (process_body_volume _ _ _ _ _ Haddr Hl) as Hbody.
  change (Const.AMP_MUTE_VALUE =? Const.AMP_MUTE_VALUE) with true in Hbody.
  cbv iota in Hbody.
  split; [exact Hbody |]. split; [| split; reflexivity].
  rewrite (fan_out_eq channel_id Client.muted_patch cbs w Hl eq_refl) in Hbody.
  apply (process_message_calls _ _ _ _ Hbody).
Qed.

Lemma mute_sentinel_patch_witness :
  Api.calls (snd (Client._process_message Fixtures.mute_line
                    (Fixtures.online Fixtures.two_zones)))
  = [(0%nat, Client.muted_patch); (1%nat, Client.muted_patch)].
Proof.
  refine (proj1 (proj2 (mute_sentinel_patch Fixtures.mute_line "4"
                   [Fixtures.quiet 0; Fixtures.quiet 1]
                   (Fixtures.online Fixtures.two_zones) _ eq_refl))).
  exists "MTX:mem_512/60002/0/4/0/0/0"%string, "-13801"%string.
  repeat split; reflexivity.
Defined.

(** C6.  A line with fewer than six whitespace-separated fields, or whose
    sixth field is not an integer literal, makes [_process_message] return
    normally with the world unchanged: no callback is called and nothing
    is raised. *)
Theorem unreadable_line_ignored (message : string) (w : Api.world) :
  Client.value_unreadable message ->
  Client._process_message message w = (inr tt, w).
Proof.
  intros Hbad. unfold Client._process_message, Api.try_except.
  destruct (process_body_unreadable message w Hbad) as [H | [H | H]];
    rewrite H; reflexivity.
Qed.

Lemma unreadable_line_ignored_witness :
  Client._process_message Fixtures.short_line (Fixtures.online Fixtures.two_zones)
  = (inr tt, Fixtures.online Fixtures.two_zones)
  /\ Client._process_message Fixtures.garbled_line (Fixtures.online Fixtures.two_zones)
     = (inr tt, Fixtures.online Fixtures.two_zones).
Proof.
  split.
  - apply unreadable_line_ignored. left. vm_compute. lia.
  - apply unreadable_line_ignored. right. exists "loud"%string. split; reflexivity.
Defined.



(** ** Sending commands and the handshake *)

Section Sending.

Import Py Api Client.




Lemma write_and_drain_healthy (data : string) (w : world) :
  healthy (faults w) -> write_and_drain data w = (inr tt, sent [data] w).
Proof.
  unfold write_and_drain, sent. intros H.
  destruct (faults w) as [| [e |] rest]; simpl; try reflexivity.
  inversion H; discriminate.
Qed.

(** C9.  While the connected flag is false, or no writer is held,
    [_send_command] returns normally and leaves the world as it found
    it: nothing is written, no attribute changes, no callback runs. *)
Theorem send_command_disconnected (command : string) (w : world) :
  is_connected (self w) = false \/ writer (self w) = None ->
  _send_command command w = (inr tt, w).
Proof.
  intros H. unfold _send_command. rewrite bind_get_self.
  destruct H as [H | H]; rewrite H.
  - reflexivity.
  - rewrite orb_true_r. reflexivity.
Qed.





End Sending.

Lemma send_command_disconnected_witness :
  Client._send_command "get MTX:mem_512/60003/0/4/0/0/0 0 0"
    (Fixtures.offline Fixtures.two_zones)
  = (inr tt, Fixtures.offline Fixtures.two_zones).
Proof. apply send_command_disconnected. left. reflexivity. Defined.

Section Handshake.

Import Py Api Client.



End Handshake.


(** ** Reconnection backoff and the media player *)

Section Backoff.

Import Manager.

Lemma announced_delay_succ (k : nat) :
  Z.min (announced_delay k * 2) Const.RECONNECT_DELAY_MAX = announced_delay (S k).
Proof.
  unfold announced_delay, Const.RECONNECT_DELAY_MAX.
  rewrite Nat2Z.inj_succ, Z.pow_succ_r by lia.
  assert (0 < 2 ^ Z.of_nat k) by (apply Z.pow_pos_nonneg; lia).
  lia.
Qed.

Lemma step_failed (s : state) :
  running s = true ->
  step s Handshake_failed
  = {| reconnect_delay := Z.min (reconnect_delay s * 2) Const.RECONNECT_DELAY_MAX;
       sleeps := sleeps s ++ [reconnect_delay s];
       running := true |}.
Proof. intros H. unfold step, set_delay, sleep. cbn. rewrite !H. reflexivity. Qed.

(** [n] failed attempts in a row, entered with the delay announced for
    [k] failures. *)
Lemma failures_in_a_row (n k : nat) (s : state) :
  running s = true ->
  reconnect_delay s = announced_delay k ->
  run s (repeat Handshake_failed n)
  = {| reconnect_delay := announced_delay (k + n);
       sleeps := sleeps s ++ map announced_delay (seq k n);
       running := true |}.
Proof.
  revert k s. induction n as [| n IH]; intros k s Hrun Hdelay.
  - simpl. rewrite Nat.add_0_r, app_nil_r, <- Hdelay, <- Hrun.
    destruct s; reflexivity.
  - cbn [repeat run fold_left]. fold (run (step s Handshake_failed) (repeat Handshake_failed n)).
    rewrite (step_failed s Hrun).
    rewrite (IH (S k)).
    + cbn [sleeps seq map]. rewrite Hdelay, <- app_assoc, Nat.add_succ_r. reflexivity.
    + reflexivity.
    + cbn [reconnect_delay]. rewrite Hdelay. apply announced_delay_succ.
Qed.

(** C4.  After [n] failed attempts in a row, counted from the start of
    the loop or from a successful handshake, the delay is
    min(5 * 2^n, 60), the sleeps performed for them are that sequence from
    5 on, and a successful handshake puts the delay back to 5. *)
Theorem backoff_sequence (n : nat) :
  reconnect_delay (run start (repeat Handshake_failed n))
  = Z.min (5 * 2 ^ Z.of_nat n) 60
  /\ sleeps (run start (repeat Handshake_failed n)) = map announced_delay (seq 0 n)
  /\ (forall s : state,
        running s = true ->
        reconnect_delay (step s Handshake_succeeded) = 5
        /\ reconnect_delay
             (run (step s Handshake_succeeded) (repeat Handshake_failed n))
           = Z.min (5 * 2 ^ Z.of_nat n) 60
        /\ sleeps (run (step s Handshake_succeeded) (repeat Handshake_failed n))
           = sleeps s ++ map announced_delay (seq 0 n)).
Proof.
  split; [| split].
  - rewrite (failures_in_a_row n 0 start eq_refl eq_refl). reflexivity.
  - rewrite (failures_in_a_row n 0 start eq_refl eq_refl). reflexivity.
  - intros s Hrun.
    assert (step s Handshake_succeeded
            = {| reconnect_delay := 5; sleeps := sleeps s; running := true |}) as E.
    { unfold step, set_delay. cbn. rewrite !Hrun. reflexivity. }
    rewrite E.
    rewrite (failures_in_a_row n 0 {| reconnect_delay := 5; sleeps := sleeps s; running := true |}
               eq_refl eq_refl).
    repeat split.
Qed.

(** Three failures, then a success: sleeps of 5, 10 and 20 seconds, and
    the delay is 5 again. *)
Example three_failures_then_success :
  run start [Handshake_failed; Handshake_failed; Handshake_failed; Handshake_succeeded]
  = {| reconnect_delay := 5; sleeps := [5; 10; 20]; running := true |}.
Proof. reflexivity. Qed.

Example delays_up_to_the_cap :
  map (fun n => reconnect_delay (run start (repeat Handshake_failed n)))
      [0; 1; 2; 3; 4; 5; 6]%nat
  = [5; 10; 20; 40; 60; 60; 60].
Proof. reflexivity. Qed.

(** An unexpected error sleeps for the current delay and leaves it as it
    is. *)
Lemma unexpected_error_keeps_delay (s : state) :
  reconnect_delay (step s Unexpected_error) = reconnect_delay s.
Proof. unfold step. destruct (running s); reflexivity. Qed.

End Backoff.

Section Unmute.

Import Py Api MediaPlayer.

Lemma or_else_falsy (x : option Q) (d : Q) : truthy x = false -> or_else x d = d.
Proof. destruct x as [q |]; simpl; intros H; [rewrite H |]; reflexivity. Qed.

Lemma handle_updates_keeps (updates : list patch) (e : entity) :
  pre_mute_volume (handle_updates updates e) = pre_mute_volume e
  /\ channel_id (handle_updates updates e) = channel_id e.
Proof.
  unfold handle_updates. revert e.
  induction updates as [| p rest IH]; intros e; simpl.
  - auto.
  - destruct (IH (_handle_update p e)) as [H1 H2]. rewrite H1, H2. auto.
Qed.

(** C10.  If mute is engaged while the last-known volume level is 0.0
    or unknown, then, whatever updates arrive in between, the next unmute
    request asks the client for volume 0.5. *)
Theorem unmute_after_silence (e : entity) (updates : list patch) :
  truthy (attr_volume_level e) = false ->
  snd (async_mute_volume false
         (handle_updates updates (fst (async_mute_volume true e))))
  = Client.async_set_volume (channel_id e) (1 # 2).
Proof.
  intros H.
  cbn [async_mute_volume fst]. unfold async_set_volume_level. cbn [snd].
  destruct (handle_updates_keeps updates (save_pre_mute e)) as [Hpre Hch].
  rewrite Hpre, Hch. cbn [save_pre_mute pre_mute_volume channel_id].
  rewrite (or_else_falsy _ _ H). reflexivity.
Qed.

End Unmute.

Lemma unmute_after_silence_witness :
  Api.wire (snd (snd (MediaPlayer.async_mute_volume false
                        (MediaPlayer.handle_updates [Client.muted_patch]
                           (fst (MediaPlayer.async_mute_volume true Fixtures.silent_zone))))
                   (Fixtures.online Fixtures.two_zones)))
  = [Client.set_command "60002" "4" (-4000)].
Proof.
  rewrite (unmute_after_silence Fixtures.silent_zone [Client.muted_patch] eq_refl).
  reflexivity.
Defined.

Example restoring_zero_would_differ :
  Api.wire (snd (Client.async_set_volume "4" 0 (Fixtures.online Fixtures.two_zones)))
  = [Client.set_command "60002" "4" (-8000)].
Proof. reflexivity. Qed.

(** ** Further scenarios *)

Example amp_volume_default_full :
  Volume.amp_volume (Volume.db_100 (-80)) (Volume.db_100 0) 1 = 0.
Proof. reflexivity. Qed.

(** The reply [OK get MTX:mem_512/60002/0/4/0/0/0 0 0 -8000] under the
    default bounds: mute = false and volume = 0.0 for both callbacks of
    channel 4. *)
Example volume_line_scenario :
  Client._process_message Fixtures.volume_line (Fixtures.online Fixtures.two_zones)
  = (inr tt,
     Client.logged [(0%nat, Client.volume_patch 0); (1%nat, Client.volume_patch 0)]
       (Fixtures.online Fixtures.two_zones)).
Proof. reflexivity. Qed.

(** A line for a channel nobody registered is dropped. *)
Example unknown_channel_dropped :
  Client._process_message "OK get MTX:mem_512/60002/0/9/0/0/0 0 0 -8000"
    (Fixtures.online Fixtures.two_zones)
  = (inr tt, Fixtures.online Fixtures.two_zones).
Proof. reflexivity. Qed.

(** Registering three callbacks on a fresh client builds the registry of
    [Fixtures.two_zones] and makes channel 4 the keep-alive channel. *)
Example registration_order :
  Api.callbacks (Api.self (snd (Api.bind
      (Client.register_callback "4" (Fixtures.quiet 0))
      (fun _ => Api.bind (Client.register_callback "6" (Fixtures.quiet 2))
      (fun _ => Client.register_callback "4" (Fixtures.quiet 1)))
      (Fixtures.offline []))))
  = Fixtures.two_zones
  /\ Api.keep_alive_channel_id (Api.self (snd (Api.bind
      (Client.register_callback "4" (Fixtures.quiet 0))
      (fun _ => Api.bind (Client.register_callback "6" (Fixtures.quiet 2))
      (fun _ => Client.register_callback "4" (Fixtures.quiet 1)))
      (Fixtures.offline []))))
    = Some "4"%string.
Proof. split; reflexivity. Qed.

(** With bounds -139 dB and -137 dB a volume of 63/128 is written as
    -13801, which the parser reads back as the mute sentinel. *)
Example sentinel_collision :
  Volume.amp_volume (Volume.db_100 (-139)) (Volume.db_100 (-137)) (63 # 128)
  = Const.AMP_MUTE_VALUE.
Proof. reflexivity. Qed.

(** ** Registration order *)

Section Registration.

Import Py Api Client.

Lemma lookup_append_at (d : list (string * list callback)) (k : string)
    (cb : callback) (v : list callback) :
  lookup d k = Some v -> lookup (append_at d k cb) k = Some (v ++ [cb]).
Proof.
  induction d as [| [k' v'] rest IH]; simpl; [discriminate |].
  destruct (String.eqb k k') eqn:E; simpl; rewrite E.
  - intros H. inversion H. reflexivity.
  - exact IH.
Qed.

Lemma lookup_new_key (d : list (string * list callback)) (k : string) :
  lookup d k = None -> lookup (d ++ [(k, [])]) k = Some [].
Proof.
  induction d as [| [k' v'] rest IH]; simpl.
  - rewrite String.eqb_refl. reflexivity.
  - destruct (String.eqb k k'); [discriminate | exact IH].
Qed.

Lemma bind_modify {B : Type} (f : client -> client) (k : unit -> M B) (w : world) :
  bind (modify f) k w = k tt (updated f w).
Proof. reflexivity. Qed.

Lemma bind_ret {A B : Type} (a : A) (k : A -> M B) (w : world) :
  bind (ret a) k w = k a w.
Proof. reflexivity. Qed.

(** The last two steps of [register_callback] (lines 231-238) on a client
    that is not connected. *)
Lemma register_tail (channel_id : string) (cb : callback) (w : world) :
  is_connected (self w) = false ->
  exists w',
    bind get_self (fun c =>
      bind (if negb (truthy_str (keep_alive_channel_id c))
            then modify (with_keep_alive (Some channel_id))
            else ret tt)
           (fun _ =>
              bind get_self (fun c =>
                if is_connected c
                then bind (call cb (available_patch true))
                          (fun _ => async_query_channel_state channel_id)
                else ret tt))) w
    = (inr tt, w')
    /\ callbacks (self w') = callbacks (self w).
Proof.
  intros Hoff. rewrite bind_get_self.
  destruct (truthy_str (keep_alive_channel_id (self w))); cbn [negb].
  - rewrite bind_ret, bind_get_self, Hoff. exists w. split; reflexivity.
  - rewrite bind_modify, bind_get_self.
    change (is_connected (self (updated (with_keep_alive (Some channel_id)) w)))
      with (is_connected (self w)).
    rewrite Hoff. eexists. split; reflexivity.
Qed.

(** [register_callback] on a client that is not connected puts the callback
    last in its channel's list; a channel seen for the first time gets a
    list of its own. *)
Lemma register_callback_appends (channel_id : string) (cb : callback) (w : world) :
  is_connected (self w) = false ->
  fst (register_callback channel_id cb w) = inr tt
  /\ lookup (callbacks (self (snd (register_callback channel_id cb w)))) channel_id
     = Some (match lookup (callbacks (self w)) channel_id with
             | Some v => v ++ [cb]
             | None => [cb]
             end).
Proof.
  intros Hoff. unfold register_callback. rewrite bind_get_self. unfold contains.
  destruct (lookup (callbacks (self w)) channel_id) as [v |] eqn:Hl; cbn [negb].
  - rewrite bind_ret, bind_get_self, bind_modify.
    match goal with
    | |- context [bind get_self _ ?w0] =>
        destruct (register_tail channel_id cb w0 Hoff) as (w' & Hrun & Hcb)
    end.
    rewrite Hrun. cbn [fst snd]. rewrite Hcb. split; [reflexivity |].
    apply lookup_append_at. exact Hl.
  - rewrite bind_modify, bind_get_self, bind_modify.
    match goal with
    | |- context [bind get_self _ ?w0] =>
        destruct (register_tail channel_id cb w0 Hoff) as (w' & Hrun & Hcb)
    end.
    rewrite Hrun. cbn [fst snd]. rewrite Hcb. split; [reflexivity |].
    apply (lookup_append_at _ _ cb []). apply lookup_new_key. exact Hl.
Qed.

End Registration.

(** With a first callback that raises, a handshake whose reply is the
    expected line leaves the flag set, calls that callback only, sends no
    query and lets the exception through. *)
Example handshake_with_raising_callback :
  Client._connect_and_handshake (Client.Opened 1)
    (Client.Read_line (Api.HANDSHAKE_RESPONSE ++ Py.newline))
    (Fixtures.offline (Fixtures.two_listeners (Py.OtherException "RuntimeError")))
  = (inl (Py.OtherException "RuntimeError"),
     Client.logged [(0%nat, Client.available_patch true)]
       (Client.sent [Client.handshake_cmd]
          (Fixtures.online (Fixtures.two_listeners (Py.OtherException "RuntimeError"))))).
Proof. reflexivity. Qed.

(** The mute sentinel under degenerate bounds: still mute = true alone. *)
Example mute_line_flat_bounds :
  Client._process_message Fixtures.mute_line (Fixtures.flat Fixtures.two_zones)
  = (inr tt,
     Client.logged [(0%nat, Client.muted_patch); (1%nat, Client.muted_patch)]
       (Fixtures.flat Fixtures.two_zones)).
Proof. reflexivity. Qed.

(** * Further properties of the client *)

(** ** Closing the session *)

Section Closing.

Import Py Api Client Session.

Lemma logged_registry (cs : list (nat * patch)) (w : world) : same_registry w (logged cs w).
Proof. repeat split. Qed.

Lemma same_registry_refl (w : world) : same_registry w w.
Proof. repeat split. Qed.

Lemma same_registry_trans (a b c : world) :
  same_registry a b -> same_registry b c -> same_registry a c.
Proof.
  unfold same_registry. intros (A1 & A2 & A3 & A4) (B1 & B2 & B3 & B4).
  repeat split; congruence.
Qed.

(** The world [_close_connection] leaves, spelled out. *)
Lemma close_connection_eq (w : world) :
  _close_connection w
  = if is_connected (self w)
    then
      (first_raise (all_callbacks (callbacks (self w))) (available_patch false),
       logged (entries (reached (all_callbacks (callbacks (self w))) (available_patch false))
                       (available_patch false))
         (updated (with_is_connected false)
            (updated (with_transport None None)
               (updated (with_listen_task false) w))))
    else
      (inr tt, updated (with_transport None None) (updated (with_listen_task false) w)).
Proof.
  unfold _close_connection.
  rewrite bind_modify, bind_modify, bind_get_self.
  change (is_connected (self (updated (with_transport None None)
                                (updated (with_listen_task false) w))))
    with (is_connected (self w)).
  destruct (is_connected (self w)).
  - rewrite bind_modify, notify_availability_eq. reflexivity.
  - reflexivity.
Qed.




(** X3.  A write that fails with an OS error (a reset or broken pipe
    included) is not reported to the caller of [_send_command]; nothing
    reaches the wire, the session is closed and the subscribers are told
    available = false. *)
Theorem send_command_write_failure
    (command : string) (h : nat) (e : exn) (rest : list (option exn)) (w : world) :
  is_connected (self w) = true ->
  writer (self w) = Some h ->
  faults w = Some e :: rest ->
  isinstance_OSError e = true ->
  fst (_send_command command w)
  = first_raise (all_callbacks (callbacks (self w))) (available_patch false)
  /\ closed (self (snd (_send_command command w)))
  /\ wire (snd (_send_command command w)) = wire w
  /\ faults (snd (_send_command command w)) = rest
  /\ calls (snd (_send_command command w))
     = calls w ++ entries (reached (all_callbacks (callbacks (self w))) (available_patch false))
                          (available_patch false).
Proof.
  intros Hc Hw Hf He.
  unfold _send_command. rewrite bind_get_self, Hc, Hw. cbn [negb orb is_some].
  unfold try_except, write_and_drain. rewrite Hf, He.
  rewrite close_connection_eq. cbn [self is_connected]. rewrite Hc.
  cbn [fst snd]. repeat split.
Qed.

End Closing.

(** ** What parsing touches, and the range of the conversions *)

Section ParsingFrame.

Import Py Api Client Session.

Lemma lookup_contains (d : list (string * list callback)) (k : string) :
  contains d k = true -> exists v, lookup d k = Some v.
Proof. unfold contains. destruct (lookup d k); [eauto | discriminate]. Qed.

(** Whatever the line, the body of the [try] only adds to the call log,
    and what it adds are calls to callbacks of one registered channel with
    one patch. *)
Lemma process_body_logs (message : string) (w : world) :
  exists r cs,
    process_body message w = (r, logged cs w)
    /\ (cs = []
        \/ exists channel_id cbs p,
             lookup (callbacks (self w)) channel_id = Some cbs
             /\ cs = entries (reached cbs p) p).
Proof.
  unfold process_body.
  destruct (getitem (split message) 2) as [e | field] eqn:Hfield.
  { rewrite (bind_lift_inl _ _ _ _ eq_refl). exists (inl e), []. rewrite logged_nil. auto. }
  rewrite (bind_lift_inr _ _ _ _ eq_refl).
  destruct (getitem (split_on "/" field) 1) as [e | command_id] eqn:Hcmd.
  { rewrite (bind_lift_inl _ _ _ _ eq_refl). exists (inl e), []. rewrite logged_nil. auto. }
  rewrite (bind_lift_inr _ _ _ _ eq_refl).
  destruct (getitem (split_on "/" field) 3) as [e | channel_id] eqn:Hch.
  { rewrite (bind_lift_inl _ _ _ _ eq_refl). exists (inl e), []. rewrite logged_nil. auto. }
  rewrite (bind_lift_inr _ _ _ _ eq_refl).
  rewrite bind_get_self.
  destruct (contains (callbacks (self w)) channel_id) eqn:Hin; cbn [negb].
  2: { exists (inr tt), []. rewrite logged_nil. auto. }
  destruct (lookup_contains _ _ Hin) as [cbs Hl].
  destruct (getitem (split message) 5) as [e | literal] eqn:Hlit.
  { rewrite (bind_lift_inl _ _ _ _ eq_refl). exists (inl e), []. rewrite logged_nil. auto. }
  rewrite (bind_lift_inr _ _ _ _ eq_refl).
  destruct (int_of_str literal) as [e | value] eqn:Hint.
  { rewrite (bind_lift_inl _ _ _ _ eq_refl). exists (inl e), []. rewrite logged_nil. auto. }
  rewrite (bind_lift_inr _ _ _ _ eq_refl).
  destruct (String.eqb command_id PATH_ID_POWER).
  { rewrite (fan_out_eq channel_id (power_patch value) cbs w Hl eq_refl).
    do 2 eexists. split; [reflexivity |]. right. eauto. }
  destruct (String.eqb command_id PATH_ID_VOLUME).
  2: { exists (inr tt), []. rewrite logged_nil. auto. }
  destruct (value =? Const.AMP_MUTE_VALUE).
  { rewrite (fan_out_eq channel_id muted_patch cbs w Hl eq_refl).
    do 2 eexists. split; [reflexivity |]. right. eauto. }
  destruct (normalized_total (min_db_100 (self w)) (max_db_100 (self w)) value) as [q Hq].
  rewrite (bind_lift_inr _ _ _ _ Hq).
  rewrite (fan_out_eq channel_id (volume_patch q) cbs w Hl eq_refl).
  do 2 eexists. split; [reflexivity |]. right. eauto.
Qed.

(** X4.  Whatever the line, [_process_message] leaves the client, the
    wire and the pending write outcomes alone; it only adds calls, all to
    callbacks of one registered channel and with one patch; and it never
    lets an [IndexError] or a [ValueError] out. *)
Theorem process_message_frame (message : string) (w : world) :
  (exists cs,
     snd (_process_message message w) = logged cs w
     /\ (cs = []
         \/ exists channel_id cbs p,
              lookup (callbacks (self w)) channel_id = Some cbs
              /\ cs = entries (reached cbs p) p))
  /\ (forall e,
        fst (_process_message message w) = inl e ->
        isinstance_IndexError e || isinstance_ValueError e = false).
Proof.
  destruct (process_body_logs message w) as (r & cs & Hbody & Hcs).
  unfold _process_message, try_except. rewrite Hbody.
  destruct r as [e | u].
  - destruct (isinstance_IndexError e || isinstance_ValueError e) eqn:He; cbn [fst snd ret].
    + split; [eauto | intros e' H; discriminate].
    + split; [eauto | intros e' H; inversion H; subst; exact He].
  - cbn [fst snd]. split; [eauto | intros e' H; discriminate].
Qed.

End ParsingFrame.

Section VolumeBounds.

Local Open Scope Q_scope.








End VolumeBounds.


(** ** The registry *)

Section Frames.

Import Py Api Client Session.

Lemma keeps_ret {A : Type} (a : A) : keeps_registry (ret a).
Proof. intros w. apply same_registry_refl. Qed.

Lemma keeps_raise {A : Type} (e : exn) : keeps_registry (@raise A e).
Proof. intros w. apply same_registry_refl. Qed.

Lemma keeps_bind {A B : Type} (m : M A) (k : A -> M B) :
  keeps_registry m -> (forall a, keeps_registry (k a)) -> keeps_registry (bind m k).
Proof.
  intros Hm Hk w. unfold bind. specialize (Hm w).
  destruct (m w) as [[e | a] w1]; cbn [snd] in *.
  - exact Hm.
  - eapply same_registry_trans; [exact Hm | apply Hk].
Qed.

Lemma keeps_try_except {A : Type} (body : M A) (handled : exn -> bool) (handler : exn -> M A) :
  keeps_registry body -> (forall e, keeps_registry (handler e)) ->
  keeps_registry (try_except body handled handler).
Proof.
  intros Hb Hh w. unfold try_except. specialize (Hb w).
  destruct (body w) as [[e | a] w1]; cbn [snd] in *.
  - destruct (handled e); [| exact Hb].
    eapply same_registry_trans; [exact Hb | apply Hh].
  - exact Hb.
Qed.

Lemma keeps_for_each {A : Type} (xs : list A) (body : A -> M unit) :
  (forall x, keeps_registry (body x)) -> keeps_registry (for_each xs body).
Proof.
  intros Hbody. induction xs as [| x rest IH]; cbn [for_each].
  - apply keeps_ret.
  - apply keeps_bind; [apply Hbody | intros _; exact IH].
Qed.

Lemma keeps_lift {A : Type} (r : exn + A) : keeps_registry (lift r).
Proof. destruct r; [apply keeps_raise | apply keeps_ret]. Qed.

Lemma keeps_get_self : keeps_registry get_self.
Proof. intros w. apply same_registry_refl. Qed.

Lemma keeps_call (cb : callback) (p : patch) : keeps_registry (call cb p).
Proof. intros w. unfold call. destruct (cb_body cb p); repeat split. Qed.

Lemma keeps_write (data : string) : keeps_registry (write_and_drain data).
Proof.
  intros w. unfold write_and_drain. destruct (faults w) as [| [e |] rest]; repeat split.
Qed.

Lemma keeps_close : keeps_registry _close_connection.
Proof.
  intros w. rewrite close_connection_eq.
  destruct (is_connected (self w)); repeat split.
Qed.

Lemma keeps_send (command : string) : keeps_registry (_send_command command).
Proof.
  unfold _send_command. apply keeps_bind; [apply keeps_get_self |].
  intros c. destruct (_ || _); [apply keeps_ret |].
  apply keeps_try_except; [apply keeps_write | intros _; apply keeps_close].
Qed.

Lemma keeps_query (channel_id : string) : keeps_registry (async_query_channel_state channel_id).
Proof. apply keeps_for_each. intros cmd. apply keeps_send. Qed.

Lemma lookup_append_at_other (d : list (string * list callback)) (k other : string)
    (cb : callback) :
  other <> k -> lookup (append_at d k cb) other = lookup d other.
Proof.
  intros Hne. induction d as [| [k' v'] rest IH]; simpl; [reflexivity |].
  destruct (String.eqb k k') eqn:E; simpl.
  - apply String.eqb_eq in E. subst k'.
    destruct (String.eqb other k) eqn:E'; [| reflexivity].
    apply String.eqb_eq in E'. contradiction.
  - rewrite IH. reflexivity.
Qed.

Lemma lookup_new_key_other (d : list (string * list callback)) (k other : string) :
  other <> k -> lookup (d ++ [(k, [])]) other = lookup d other.
Proof.
  intros Hne. induction d as [| [k' v'] rest IH]; simpl.
  - destruct (String.eqb other k) eqn:E; [| reflexivity].
    apply String.eqb_eq in E. contradiction.
  - rewrite IH. reflexivity.
Qed.

(** The first two steps of [register_callback] (lines 226-233) and what
    follows them. *)
Lemma register_callback_split (channel_id : string) (cb : callback) (w : world) :
  let d := callbacks (self w) in
  let d' := append_at (if contains d channel_id then d else d ++ [(channel_id, [])])
                      channel_id cb in
  let k' := if truthy_str (keep_alive_channel_id (self w))
            then keep_alive_channel_id (self w) else Some channel_id in
  register_callback channel_id cb w
  = (if is_connected (self w)
     then bind (call cb (available_patch true))
               (fun _ => async_query_channel_state channel_id)
     else ret tt)
      (updated (fun c => with_keep_alive k' (with_callbacks d' c)) w).
Proof.
  intros d d' k'. subst d d' k'. unfold register_callback.
  rewrite bind_get_self.
  destruct w as [c cs wr fs]. destruct c as [lo hi rd wt lt d ic ka].
  cbn [self callbacks keep_alive_channel_id is_connected].
  destruct (contains d channel_id); cbn [negb];
    rewrite ?bind_ret, ?bind_modify, bind_get_self, bind_modify, bind_get_self;
    cbn [updated self with_callbacks callbacks keep_alive_channel_id];
    destruct (truthy_str ka); cbn [negb];
    rewrite ?bind_ret, ?bind_modify, bind_get_self; reflexivity.
Qed.

(** X7.  [register_callback] puts the callback last in its channel's list
    (a list of its own for a channel seen for the first time), leaves the
    lists of the other channels and the bounds alone, and makes the
    channel the keep-alive channel only if none (or the empty id) was
    designated before, and all this whether or not the client is
    connected and however the callback and the socket behave. *)
Theorem register_callback_registers (channel_id : string) (cb : callback) (w : world) :
  lookup (callbacks (self (snd (register_callback channel_id cb w)))) channel_id
  = Some (match lookup (callbacks (self w)) channel_id with
          | Some v => v ++ [cb]
          | None => [cb]
          end)
  /\ (forall other,
        other <> channel_id ->
        lookup (callbacks (self (snd (register_callback channel_id cb w)))) other
        = lookup (callbacks (self w)) other)
  /\ keep_alive_channel_id (self (snd (register_callback channel_id cb w)))
     = (if truthy_str (keep_alive_channel_id (self w))
        then keep_alive_channel_id (self w) else Some channel_id)
  /\ min_db_100 (self (snd (register_callback channel_id cb w))) = min_db_100 (self w)
  /\ max_db_100 (self (snd (register_callback channel_id cb w))) = max_db_100 (self w).
Proof.
  rewrite register_callback_split.
  match goal with
  | |- context [snd (?m ?w0)] =>
      assert (same_registry w0 (snd (m w0))) as (Hlo & Hhi & Hcb & Hka)
  end.
  { destruct (is_connected (self w)); [| apply keeps_ret].
    apply keeps_bind; [apply keeps_call | intros _; apply keeps_query]. }
  rewrite Hlo, Hhi, Hcb, Hka.
  cbn [updated self with_keep_alive with_callbacks callbacks keep_alive_channel_id
       min_db_100 max_db_100].
  split; [| split; [| repeat split]].
  - unfold contains.
    destruct (lookup (callbacks (self w)) channel_id) as [v |] eqn:Hl.
    + apply lookup_append_at. exact Hl.
    + apply (lookup_append_at _ _ cb []). apply lookup_new_key. exact Hl.
  - intros other Hne. rewrite lookup_append_at_other by exact Hne.
    destruct (contains (callbacks (self w)) channel_id); [reflexivity |].
    apply lookup_new_key_other. exact Hne.
Qed.


End Frames.


(** ** Outcomes of the handshake *)

Section HandshakeOutcomes.

Import Py Api Client Session.

(** [_close_connection] followed by [return False]. *)
Lemma close_then_false (w : world) :
  fst (bind _close_connection (fun _ => ret false) w) <> inr true.
Proof.
  unfold bind. destruct (_close_connection w) as [[e | u] w']; cbn; discriminate.
Qed.

Lemma close_then_false_closed (w : world) :
  is_connected (self w) = false ->
  bind _close_connection (fun _ => ret false) w
  = (inr false, updated (with_transport None None) (updated (with_listen_task false) w)).
Proof.
  intros Hoff. unfold bind. rewrite close_connection_eq, Hoff. reflexivity.
Qed.

(** X9.  On a client whose flag is down, a connection that opens but
    whose reply is refused (another line, a timeout, an OS error) makes
    [_connect_and_handshake] return [False] with the session closed: the
    handshake command is all that was written, and no callback was called. *)
Theorem handshake_refused (h : nat) (r : read_result) (w : world) :
  is_connected (self w) = false ->
  healthy (faults w) ->
  refused r ->
  fst (_connect_and_handshake (Opened h) r w) = inr false
  /\ closed (self (snd (_connect_and_handshake (Opened h) r w)))
  /\ same_registry w (snd (_connect_and_handshake (Opened h) r w))
  /\ calls (snd (_connect_and_handshake (Opened h) r w)) = calls w
  /\ wire (snd (_connect_and_handshake (Opened h) r w)) = wire w ++ [handshake_cmd].
Proof.
  intros Hoff Hf Hr.
  assert (_connect_and_handshake (Opened h) r w
          = (inr false,
             updated (with_transport None None)
               (updated (with_listen_task false)
                  (sent [handshake_cmd]
                     (updated (with_transport (Some h) (Some h)) w))))) as E.
  { unfold _connect_and_handshake.
    rewrite bind_modify. unfold try_except.
    unfold bind at 1.
    rewrite (write_and_drain_healthy _ (updated (with_transport (Some h) (Some h)) w) Hf).
    unfold bind at 1.
    destruct r as [e | | text]; cbn [readline_decoded refused] in *.
    - unfold raise at 1. rewrite Hr.
      apply close_then_false_closed. exact Hoff.
    - contradiction.
    - unfold ret at 1.
      apply String.eqb_neq in Hr. rewrite Hr.
      rewrite close_then_false_closed by exact Hoff. reflexivity. }
  rewrite E. cbn [fst snd]. repeat split. exact Hoff.
Qed.

(** X10.  [_connect_and_handshake] returns [True] only when the
    connection opened and the reply, stripped, is the expected line;
    whatever the callbacks and the socket do. *)
Theorem handshake_true_only_if_expected
    (o : open_result) (r : read_result) (w : world) :
  fst (_connect_and_handshake o r w) = inr true ->
  (exists h, o = Opened h)
  /\ (exists text, r = Read_line text /\ strip text = HANDSHAKE_RESPONSE).
Proof.
  destruct o as [| h]; cbn [_connect_and_handshake].
  { cbn. discriminate. }
  intros H. split; [eauto |].
  rewrite bind_modify in H. unfold try_except in H.
  unfold bind at 1 in H.
  destruct (write_and_drain handshake_cmd (updated (with_transport (Some h) (Some h)) w))
    as [[e | u] w1].
  { destruct (_ || _); [| discriminate H]. exfalso. exact (close_then_false _ H). }
  unfold bind at 1 in H.
  destruct r as [e | | text]; cbn [readline_decoded] in H.
  - unfold raise at 1 in H.
    destruct (_ || _); [| discriminate H]. exfalso. exact (close_then_false _ H).
  - unfold raise at 1 in H. cbn in H. discriminate H.
  - unfold ret at 1 in H.
    destruct (String.eqb (strip text) HANDSHAKE_RESPONSE) eqn:E.
    + apply String.eqb_eq in E. eauto.
    + exfalso.
      destruct (bind _close_connection (fun _ => ret false) w1) as [[e | b] w2] eqn:Hc.
      * destruct (_ || _); [| discriminate H]. exact (close_then_false _ H).
      * pose proof (close_then_false w1) as N. rewrite Hc in N. cbn in N, H.
        congruence.
Qed.

End HandshakeOutcomes.

Section BackoffBounds.

Import Manager Supervisor.

Lemma step_within_bounds (s : state) (t : turn) :
  within_bounds s -> within_bounds (step s t).
Proof.
  intros [Hd Hs]. unfold step.
  destruct (running s); cbn [negb]; [| split; assumption].
  destruct t; unfold within_bounds, set_delay, sleep, Const.RECONNECT_DELAY_INITIAL,
    Const.RECONNECT_DELAY_MAX; cbn [reconnect_delay sleeps].
  - split; [assumption |]. apply Forall_app. split; [assumption |]. constructor; [lia | constructor].
  - split; [lia | assumption].
  - split; [lia |]. apply Forall_app. split; [assumption |]. constructor; [lia | constructor].
  - split; [assumption |]. apply Forall_app. split; [assumption |]. constructor; [lia | constructor].
  - split; assumption.
Qed.

End BackoffBounds.

(** ** The reconnection loop and the media player, continued *)

Section BackoffInvariant.

Import Manager Supervisor.

Lemma run_within_bounds (ts : list turn) (s : state) :
  within_bounds s -> within_bounds (run s ts).
Proof.
  revert s. induction ts as [| t rest IH]; intros s H; cbn [run fold_left].
  - exact H.
  - apply IH. apply step_within_bounds. exact H.
Qed.

Lemma run_stopped (ts : list turn) (s : state) : running s = false -> run s ts = s.
Proof.
  intros H. induction ts as [| t rest IH]; cbn [run fold_left]; [reflexivity |].
  unfold step at 2. rewrite H. cbn [negb]. exact IH.
Qed.

Lemma step_cancelled_stops (s : state) : running (step s Cancelled) = false.
Proof. unfold step. destruct (running s) eqn:E; cbn [negb running]; [reflexivity | exact E]. Qed.

(** X11.  Whatever the turns of the reconnection loop, the delay and
    every sleep it performs stay between 5 and 60 seconds; and once the
    loop is cancelled, later events change nothing. *)
Theorem backoff_within_bounds (ts : list turn) :
  within_bounds (run start ts)
  /\ (forall later, run (run start (ts ++ [Cancelled])) later = run start (ts ++ [Cancelled])).
Proof.
  split.
  - apply run_within_bounds.
    split; [unfold start, Const.RECONNECT_DELAY_INITIAL; cbn; lia | constructor].
  - intros later. apply run_stopped.
    unfold run. rewrite fold_left_app. cbn [fold_left].
    apply step_cancelled_stops.
Qed.

End BackoffInvariant.

Section Restore.

Import Py Api MediaPlayer.

(** X12.  If mute is engaged while the last-known volume level is a
    non-zero [q], then, whatever updates arrive in between, the next unmute
    request asks the client for volume [q]. *)
Theorem unmute_restores_volume (e : entity) (q : Q) (updates : list patch) :
  attr_volume_level e = Some q ->
  Qeq_bool q 0 = false ->
  snd (async_mute_volume false
         (handle_updates updates (fst (async_mute_volume true e))))
  = Client.async_set_volume (channel_id e) q.
Proof.
  intros Hv Hq.
  cbn [async_mute_volume fst]. unfold async_set_volume_level. cbn [snd].
  destruct (handle_updates_keeps updates (save_pre_mute e)) as [Hpre Hch].
  rewrite Hpre, Hch. cbn [save_pre_mute pre_mute_volume channel_id].
  rewrite Hv. unfold or_else, truthy. rewrite Hq. reflexivity.
Qed.

End Restore.

Lemma unmute_restores_volume_witness :
  Api.wire (snd (snd (MediaPlayer.async_mute_volume false
                        (MediaPlayer.handle_updates [Client.muted_patch]
                           (fst (MediaPlayer.async_mute_volume true
                                   (MediaPlayer._handle_update (Client.volume_patch (1 # 4))
                                      (MediaPlayer.init "4"))))))
                   (Fixtures.online Fixtures.two_zones)))
  = [Client.set_command "60002" "4" (-6000)].
Proof.
  rewrite (unmute_restores_volume
             (MediaPlayer._handle_update (Client.volume_patch (1 # 4)) (MediaPlayer.init "4"))
             (1 # 4) [Client.muted_patch] eq_refl eq_refl).
  reflexivity.
Defined.

(** ** The listener and the keep-alive pulse *)

Section Listening.

Import Py Api Client Session Listener.

Lemma listen_unfold (ev : read_event) (rest : list read_event) (w : world) :
  is_connected (self w) = true -> is_some (reader (self w)) = true ->
  _listen (ev :: rest) w
  = match listen_turn ev w with
    | (inr true, w') => _listen rest w'
    | (inr false, w') => (inr Stopped, w')
    | (inl e, w') => (inl e, w')
    end.
Proof. intros Hc Hr. cbn [_listen]. rewrite Hc, Hr. reflexivity. Qed.

(** X13.  Lines that do not begin with [OK get], [OK set] or
    [NOTIFY set] are read and dropped: after any number of them the world
    is as it was and the listener waits for the next line. *)
Theorem listen_ignores_unrecognised (texts : list string) (w : world) :
  is_connected (self w) = true ->
  is_some (reader (self w)) = true ->
  Forall (fun text => is_empty text = false /\ recognised (strip text) = false) texts ->
  _listen (map Data texts) w = (inr Waiting, w).
Proof.
  intros Hc Hr Hall. induction Hall as [| text rest [Hne Hun] _ IH]; cbn [map].
  - cbn [_listen]. rewrite Hc, Hr. reflexivity.
  - rewrite (listen_unfold _ _ _ Hc Hr).
    unfold listen_turn, listen_body. rewrite Hne, Hun.
    cbn. exact IH.
Qed.









End Listening.


Lemma listen_ignores_unrecognised_witness :
  Listener._listen
    (map Listener.Data [("ERROR unknown command" ++ Py.newline)%string; Py.newline])
    (Fixtures.online Fixtures.two_zones)
  = (inr Listener.Waiting, Fixtures.online Fixtures.two_zones).
Proof.
  apply listen_ignores_unrecognised.
  - reflexivity.
  - reflexivity.
  - repeat constructor.
Defined.




(** ** The probe *)

Section Probe.

Import Py Api Client Session Listener.

(** X18.  The probe answers [True] exactly when a client just built, with
    no callback registered yet, would complete its handshake on the same
    connection: same opening, same outcome of the first write, same
    reply. *)
Theorem probe_agrees_with_handshake
    (min_db max_db : Z) (o : open_result) (r : read_result) (fs : list (option exn)) :
  test_connection o (hd None fs) r None = inr true
  <-> fst (_connect_and_handshake o r (fresh min_db max_db fs)) = inr true.
Proof.
  destruct o as [| h]; [cbn; tauto |].
  unfold _connect_and_handshake. rewrite bind_modify. unfold try_except.
  unfold bind at 1. unfold write_and_drain.
  destruct fs as [| [e |] rest]; cbn [faults fresh updated hd test_connection].
  - unfold bind at 1.
    destruct r as [e | | text]; cbn [readline_decoded].
    + unfold raise at 1. destruct (_ || _); cbn; split; discriminate.
    + cbn. split; discriminate.
    + unfold ret at 1. destruct (String.eqb (strip text) HANDSHAKE_RESPONSE); cbn; tauto.
  - destruct (_ || _); cbn; split; discriminate.
  - unfold bind at 1.
    destruct r as [e | | text]; cbn [readline_decoded].
    + unfold raise at 1. destruct (_ || _); cbn; split; discriminate.
    + cbn. split; discriminate.
    + unfold ret at 1. destruct (String.eqb (strip text) HANDSHAKE_RESPONSE); cbn; tauto.
Qed.

End Probe.

(** ** Splitting text, and the channel table of the configuration form *)

Section Splitting.

Import Py Text.
Local Open Scope string_scope.

Lemma append_assoc (a b c : string) : (a ++ b) ++ c = a ++ b ++ c.
Proof. induction a as [| x a IH]; simpl; [reflexivity | rewrite IH; reflexivity]. Qed.

Lemma append_nil_r (a : string) : a ++ "" = a.
Proof. induction a as [| x a IH]; simpl; [reflexivity | rewrite IH; reflexivity]. Qed.

Lemma snoc_append (a b : string) (c : ascii) : snoc a c ++ b = a ++ String c b.
Proof. unfold snoc. rewrite append_assoc. reflexivity. Qed.

(** Splitting at [sep] a text whose first piece is free of [sep]. *)
Lemma split_on_from_piece (sep : ascii) (piece cur rest : string) :
  free_of sep piece = true ->
  split_on_from sep cur (piece ++ String sep rest)
  = (cur ++ piece) :: split_on_from sep "" rest.
Proof.
  revert cur. induction piece as [| c piece IH]; intros cur H; simpl.
  - rewrite Ascii.eqb_refl, append_nil_r. reflexivity.
  - simpl in H. apply andb_true_iff in H. destruct H as [Hc H].
    apply negb_true_iff in Hc. rewrite Hc, IH by exact H.
    rewrite snoc_append. reflexivity.
Qed.

Lemma split_on_from_last (sep : ascii) (piece cur : string) :
  free_of sep piece = true ->
  split_on_from sep cur piece = [cur ++ piece].
Proof.
  revert cur. induction piece as [| c piece IH]; intros cur H; simpl.
  - rewrite append_nil_r. reflexivity.
  - simpl in H. apply andb_true_iff in H. destruct H as [Hc H].
    apply negb_true_iff in Hc. rewrite Hc, IH by exact H.
    rewrite snoc_append. reflexivity.
Qed.

(** [sep.join(pieces).split(sep)] gives the pieces back. *)
Lemma split_on_concat (sep : ascii) (pieces : list string) :
  pieces <> [] ->
  Forall (fun piece => free_of sep piece = true) pieces ->
  split_on sep (String.concat (String sep "") pieces) = pieces.
Proof.
  unfold split_on. intros Hne Hall.
  induction Hall as [| piece rest Hp Hrest IH]; [contradiction |].
  destruct rest as [| next rest'].
  - simpl. apply split_on_from_last. exact Hp.
  - change (String.concat (String sep "") (piece :: next :: rest'))
      with (piece ++ String sep (String.concat (String sep "") (next :: rest'))).
    rewrite split_on_from_piece by exact Hp. simpl append.
    rewrite IH by discriminate. reflexivity.
Qed.

Lemma split_once_from_piece (sep : ascii) (piece cur rest : string) :
  free_of sep piece = true ->
  ConfigFlow.split_once_from sep cur (piece ++ String sep rest) = [cur ++ piece; rest].
Proof.
  revert cur. induction piece as [| c piece IH]; intros cur H; simpl.
  - rewrite Ascii.eqb_refl, append_nil_r. reflexivity.
  - simpl in H. apply andb_true_iff in H. destruct H as [Hc H].
    apply negb_true_iff in Hc. rewrite Hc, IH by exact H.
    rewrite snoc_append. reflexivity.
Qed.

Lemma contains_char_middle (sep : ascii) (a b : string) :
  ConfigFlow.contains_char sep (a ++ String sep b) = true.
Proof.
  unfold ConfigFlow.contains_char, free_of.
  induction a as [| c a IH]; simpl.
  - rewrite Ascii.eqb_refl. reflexivity.
  - destruct (Ascii.eqb c sep); simpl; [reflexivity | exact IH].
Qed.

Lemma free_of_append (sep : ascii) (a b : string) :
  free_of sep (a ++ b) = free_of sep a && free_of sep b.
Proof.
  unfold free_of. induction a as [| c a IH]; simpl; [reflexivity |].
  rewrite IH, andb_assoc. reflexivity.
Qed.

End Splitting.

Section ChannelTable.

Import Py Text ConfigFlow.
Local Open Scope string_scope.

Lemma dict_set_fresh (d : list (string * string)) (k v : string) :
  ~ In k (map fst d) -> dict_set d k v = (d ++ [(k, v)])%list.
Proof.
  induction d as [| [k' v'] rest IH]; simpl; intros Hn; [reflexivity |].
  destruct (String.eqb_spec k k') as [-> | Hne].
  - exfalso. apply Hn. left. reflexivity.
  - rewrite IH by (intros Hin; apply Hn; right; exact Hin). reflexivity.
Qed.

Lemma parse_pairs_shown (d acc : list (string * string)) :
  Forall presentable d ->
  NoDup (map fst (acc ++ d)%list) ->
  parse_pairs (map shown d) acc = inr (acc ++ d)%list.
Proof.
  revert acc. induction d as [| [k v] rest IH]; intros acc Hall Hnd; simpl.
  - rewrite app_nil_r. reflexivity.
  - inversion Hall as [| ? ? (Hk1 & Hk2 & Hk3 & Hv1 & Hv2) Hrest]; subst. simpl in *.
    change (shown (k, v)) with (k ++ String ":" v).
    rewrite contains_char_middle. cbn [negb].
    unfold split_once. rewrite split_once_from_piece by exact Hk2.
    cbn [append unpack2]. rewrite Hk3, Hv2.
    rewrite dict_set_fresh.
    + rewrite IH; [rewrite <- app_assoc; reflexivity | exact Hrest |].
      rewrite <- app_assoc. exact Hnd.
    + rewrite map_app in Hnd. apply NoDup_remove_2 in Hnd.
      intros Hin. apply Hnd. apply in_or_app. left. exact Hin.
Qed.

End ChannelTable.

Section Stripping.

Import Py Text.
Local Open Scope string_scope.

Lemma lstrip_starts_clean (s : string) : starts_clean (lstrip s) = true.
Proof.
  induction s as [| c s IH]; simpl; [reflexivity |].
  destruct (isspace c) eqn:E; [exact IH | simpl; rewrite E; reflexivity].
Qed.

Lemma lstrip_clean (s : string) : starts_clean s = true -> lstrip s = s.
Proof.
  destruct s as [| c s]; simpl; [reflexivity |].
  intros H. apply negb_true_iff in H. rewrite H. reflexivity.
Qed.

Lemma rstrip_starts_clean (s : string) :
  starts_clean s = true -> starts_clean (rstrip s) = true.
Proof.
  destruct s as [| c s]; simpl; [reflexivity |].
  intros H. apply negb_true_iff in H. rewrite H. simpl. rewrite H. reflexivity.
Qed.

Lemma rstrip_idempotent (s : string) : rstrip (rstrip s) = rstrip s.
Proof.
  induction s as [| c s IH]; simpl; [reflexivity |].
  destruct (isspace c && is_empty (rstrip s)) eqn:E; [reflexivity |].
  simpl. rewrite IH, E. reflexivity.
Qed.

Lemma strip_idempotent (s : string) : strip (strip s) = strip s.
Proof.
  unfold strip.
  rewrite (lstrip_clean (rstrip (lstrip s)))
    by (apply rstrip_starts_clean, lstrip_starts_clean).
  apply rstrip_idempotent.
Qed.

End Stripping.

Section ChannelRoundTrip.

Import Py Text ConfigFlow.
Local Open Scope string_scope.

Lemma shown_not_empty (kv : string * string) : is_empty (shown kv) = false.
Proof. destruct kv as [k v]. unfold shown. simpl. destruct k; reflexivity. Qed.

Lemma concat_not_empty (sep : string) (x : string) (xs : list string) :
  is_empty x = false -> is_empty (String.concat sep (x :: xs)) = false.
Proof.
  intros H. destruct xs as [| y ys]; simpl; [exact H |].
  destruct x; [discriminate | reflexivity].
Qed.

Lemma shown_free_of_comma (kv : string * string) :
  presentable kv -> free_of "," (shown kv) = true.
Proof.
  intros (Hk & _ & _ & Hv & _). unfold shown.
  rewrite free_of_append, Hk. simpl. exact Hv.
Qed.

(** X19.  A channel table whose ids are distinct, stripped and free of
    commas and colons, and whose names are stripped and free of commas,
    survives the form: the text [build_schema] shows for it is parsed by
    [validate_input] back into the same table, in the same order. *)
Theorem channels_round_trip (channels : list (string * string)) :
  channels <> [] ->
  Forall presentable channels ->
  NoDup (map fst channels) ->
  parse_channels (channels_str channels) = inr channels
  /\ validate_input (inr true) (channels_str channels) = inr channels.
Proof.
  intros Hne Hall Hnd.
  assert (parse_channels (channels_str channels) = inr channels) as E.
  { unfold channels_str. fold shown.
    change (map (fun kv : string * string => fst kv ++ ":" ++ snd kv) channels)
      with (map shown channels).
    destruct channels as [| kv rest]; [contradiction |].
    cbn [map]. rewrite (concat_not_empty "," (shown kv) (map shown rest) (shown_not_empty kv)).
    unfold parse_channels.
    change (shown kv :: map shown rest) with (map shown (kv :: rest)).
    rewrite split_on_concat.
    - rewrite (parse_pairs_shown (kv :: rest) [] Hall Hnd). reflexivity.
    - discriminate.
    - apply Forall_map. eapply Forall_impl; [| exact Hall].
      intros a Ha. apply shown_free_of_comma. exact Ha. }
  split; [exact E |].
  unfold validate_input. rewrite E. reflexivity.
Qed.

Lemma dict_set_keys (d : list (string * string)) (k v : string) :
  map fst (dict_set d k v) = map fst d \/ (~ In k (map fst d) /\ map fst (dict_set d k v) = (map fst d ++ [k])%list).
Proof.
  induction d as [| [k' v'] rest IH]; simpl.
  - right. split; [tauto | reflexivity].
  - destruct (String.eqb_spec k k') as [-> | Hne]; simpl.
    + left. reflexivity.
    + destruct IH as [IH | [Hn IH]]; rewrite IH.
      * left. reflexivity.
      * right. split; [| reflexivity]. intros [H | H]; [congruence | contradiction].
Qed.

Lemma dict_set_nodup (d : list (string * string)) (k v : string) :
  NoDup (map fst d) -> NoDup (map fst (dict_set d k v)).
Proof.
  intros H. destruct (dict_set_keys d k v) as [E | [Hn E]]; rewrite E; [exact H |].
  apply NoDup_app; [exact H | repeat constructor; simpl; tauto |].
  intros x Hx [<- | []]. exact (Hn Hx).
Qed.

Lemma dict_set_stripped (d : list (string * string)) (k v : string) :
  Forall stripped d -> stripped (k, v) -> Forall stripped (dict_set d k v).
Proof.
  intros Hd Hkv. induction Hd as [| [k' v'] rest Hx Hrest IH]; simpl.
  - repeat constructor; apply Hkv.
  - destruct (String.eqb_spec k k') as [-> | Hne].
    + constructor; [| exact Hrest]. split; [apply Hx | apply Hkv].
    + constructor; assumption.
Qed.

Lemma dict_set_not_empty (d : list (string * string)) (k v : string) : dict_set d k v <> [].
Proof. destruct d as [| [k' v'] rest]; simpl; [| destruct (String.eqb k k')]; discriminate. Qed.

Lemma split_once_two (sep : ascii) (cur s : string) :
  contains_char sep s = true ->
  exists a b, split_once_from sep cur s = [a; b].
Proof.
  unfold contains_char, free_of. revert cur.
  induction s as [| c s IH]; intros cur H; simpl in *; [discriminate |].
  destruct (Ascii.eqb c sep); simpl in H; [eauto |].
  apply IH. exact H.
Qed.

(** The loop of [validate_input] over the pairs: it succeeds exactly when
    every pair holds a colon, and keeps the table's ids distinct and its
    entries stripped. *)
Lemma parse_pairs_outcome (pairs : list string) (acc : list (string * string)) :
  NoDup (map fst acc) -> Forall stripped acc ->
  if forallb (contains_char ":") pairs
  then exists d, parse_pairs pairs acc = inr d
                 /\ NoDup (map fst d) /\ Forall stripped d
                 /\ (pairs <> [] -> d <> [])
  else parse_pairs pairs acc = inl ValueError.
Proof.
  revert acc. induction pairs as [| item rest IH]; intros acc Hnd Hst; simpl.
  - exists acc. repeat split; try assumption. intros H; contradiction.
  - destruct (contains_char ":" item) eqn:Hc; cbn [negb andb]; [| reflexivity].
    destruct (split_once_two ":" "" item Hc) as (a & b & Hab).
    unfold split_once. rewrite Hab. cbn [unpack2].
    assert (stripped (strip a, strip b)) as Hnew by (split; apply strip_idempotent).
    specialize (IH (dict_set acc (strip a) (strip b))
                   (dict_set_nodup _ _ _ Hnd) (dict_set_stripped _ _ _ Hst Hnew)).
    destruct (forallb (contains_char ":") rest); [| exact IH].
    destruct IH as (d & Hd & H1 & H2 & H3).
    exists d. repeat split; try assumption.
    intros _. destruct rest as [| item' rest'].
    + simpl in Hd. inversion Hd. apply dict_set_not_empty.
    + apply H3. discriminate.
Qed.

Lemma split_on_from_not_empty (sep : ascii) (cur s : string) : split_on_from sep cur s <> [].
Proof.
  revert cur. induction s as [| c s IH]; intros cur; simpl; [discriminate |].
  destruct (Ascii.eqb c sep); [discriminate | apply IH].
Qed.

(** X20.  Once the probe has succeeded, [validate_input] raises
    [InvalidChannels] exactly when one of the comma-separated pieces holds
    no colon (the empty text and a trailing comma included); otherwise it
    returns a table that is not empty, whose ids are distinct, and whose
    ids and names are stripped. *)
Theorem validate_input_outcome (channels : string) :
  if forallb (contains_char ":") (split_on "," channels)
  then exists d, validate_input (inr true) channels = inr d
                 /\ d <> [] /\ NoDup (map fst d) /\ Forall stripped d
  else validate_input (inr true) channels = inl InvalidChannels.
Proof.
  pose proof (parse_pairs_outcome (split_on "," channels) [] (NoDup_nil _) (Forall_nil _)) as H.
  unfold validate_input, parse_channels.
  destruct (forallb (contains_char ":") (split_on "," channels)).
  - destruct H as (d & Hd & H1 & H2 & H3). rewrite Hd.
    specialize (H3 (split_on_from_not_empty _ _ _)).
    destruct d as [| kv rest]; [contradiction |].
    exists (kv :: rest). repeat split; assumption.
  - rewrite H. reflexivity.
Qed.

End ChannelRoundTrip.

Lemma channels_round_trip_witness :
  ConfigFlow.parse_channels
    (ConfigFlow.channels_str [("4", "Zone1"); ("6", "Patio: upper deck")]%string)
  = inr [("4", "Zone1"); ("6", "Patio: upper deck")]%string
  /\ ConfigFlow.validate_input (inr true)
       (ConfigFlow.channels_str [("4", "Zone1"); ("6", "Patio: upper deck")]%string)
     = inr [("4", "Zone1"); ("6", "Patio: upper deck")]%string.
Proof.
  apply channels_round_trip.
  - discriminate.
  - repeat constructor.
  - repeat constructor; simpl; intuition discriminate.
Defined.

(** ** Integers as text *)

Section Decimals.

Import Py Text.

Lemma of_uint_acc_value (d : uint) (acc : positive) :
  Z.pos (Pos.of_uint_acc d acc) = uint_value d (Z.pos acc).
Proof.
  revert acc. induction d; intros acc; cbn [Pos.of_uint_acc uint_value]; try reflexivity;
    rewrite IHd; f_equal; lia.
Qed.

Lemma of_uint_value (d : uint) : Z.of_N (Pos.of_uint d) = uint_value d 0.
Proof.
  induction d; cbn [Pos.of_uint uint_value Z.of_N]; try reflexivity; try exact IHd;
    rewrite of_uint_acc_value; reflexivity.
Qed.

Lemma to_uint_value (p : positive) : uint_value (Pos.to_uint p) 0 = Z.pos p.
Proof. rewrite <- of_uint_value, Unsigned.of_to. reflexivity. Qed.

Lemma int_digits_uint (d : uint) (acc : Z) :
  int_digits acc true (NilEmpty.string_of_uint d) = Some (uint_value d acc).
Proof.
  revert acc. induction d; intros acc; simpl; try reflexivity;
    rewrite IHd; f_equal; f_equal; lia.
Qed.

Lemma int_digits_uint_start (d : uint) :
  d <> Nil ->
  int_digits 0 false (NilEmpty.string_of_uint d) = Some (uint_value d 0).
Proof.
  destruct d; intros H; [contradiction | ..]; simpl;
    rewrite int_digits_uint; reflexivity.
Qed.

Lemma nospace_uint (d : uint) : nospace (NilEmpty.string_of_uint d) = true.
Proof. induction d; simpl; [reflexivity | ..]; exact IHd. Qed.

Lemma nospace_lstrip (s : string) : nospace s = true -> lstrip s = s.
Proof.
  destruct s as [| c s]; simpl; [reflexivity |].
  intros H. apply andb_true_iff in H. destruct H as [H _].
  apply negb_true_iff in H. rewrite H. reflexivity.
Qed.

Lemma nospace_rstrip (s : string) : nospace s = true -> rstrip s = s.
Proof.
  induction s as [| c s IH]; simpl; [reflexivity |].
  intros H. apply andb_true_iff in H. destruct H as [Hc H].
  apply negb_true_iff in Hc. rewrite Hc, IH by exact H. reflexivity.
Qed.

Lemma nospace_strip (s : string) : nospace s = true -> strip s = s.
Proof.
  intros H. unfold strip. rewrite (nospace_lstrip s H). apply nospace_rstrip. exact H.
Qed.

Lemma nospace_str_of_int (n : Z) : nospace (str_of_int n) = true.
Proof.
  unfold str_of_int. destruct n; simpl; try reflexivity; apply nospace_uint.
Qed.

Lemma int_reads_back (n : Z) : int_of_str (str_of_int n) = inr n.
Proof.
  unfold int_of_str. rewrite (nospace_strip _ (nospace_str_of_int n)).
  unfold str_of_int. destruct n as [| p | p]; cbn [Z.to_int NilEmpty.string_of_int].
  - reflexivity.
  - pose proof (Unsigned.to_uint_nonnil p) as Hnil.
    pose proof (int_digits_uint_start _ Hnil) as Hd.
    rewrite to_uint_value in Hd.
    destruct (Pos.to_uint p); [contradiction | ..];
      cbn [NilEmpty.string_of_uint] in *; rewrite Hd; reflexivity.
  - rewrite (int_digits_uint_start _ (Unsigned.to_uint_nonnil p)), to_uint_value.
    reflexivity.
Qed.

Lemma rstrip_newline (s : string) : nospace s = true -> rstrip (s ++ newline) = s.
Proof.
  induction s as [| c s IH]; simpl; [reflexivity |].
  intros H. apply andb_true_iff in H. destruct H as [Hc H].
  apply negb_true_iff in Hc. rewrite Hc, IH by exact H. reflexivity.
Qed.



End Decimals.

(** ** Commands read back *)

Section Words.

Import Py Text.
Local Open Scope string_scope.

Lemma split_from_word (word cur rest : string) :
  nospace word = true ->
  split_from cur (word ++ rest) = split_from (cur ++ word) rest.
Proof.
  revert cur. induction word as [| c word IH]; intros cur H; simpl.
  - rewrite append_nil_r. reflexivity.
  - simpl in H. apply andb_true_iff in H. destruct H as [Hc H].
    apply negb_true_iff in Hc. rewrite Hc, IH by exact H.
    rewrite snoc_append. reflexivity.
Qed.

(** A word followed by a blank and more text. *)
Lemma split_word_then (word rest : string) (blank : ascii) :
  nospace word = true -> is_empty word = false -> isspace blank = true ->
  split (word ++ String blank rest) = word :: split rest.
Proof.
  intros Hw Hne Hb. unfold split.
  rewrite split_from_word by exact Hw. simpl. rewrite Hb, Hne. reflexivity.
Qed.

Lemma nospace_append (a b : string) : nospace (a ++ b) = nospace a && nospace b.
Proof.
  unfold nospace. induction a as [| c a IH]; simpl; [reflexivity |].
  rewrite IH, andb_assoc. reflexivity.
Qed.

Lemma str_of_int_not_empty (n : Z) : is_empty (str_of_int n) = false.
Proof.
  unfold str_of_int. destruct n as [| p | p]; cbn [Z.to_int NilEmpty.string_of_int];
    try reflexivity.
  pose proof (Unsigned.to_uint_nonnil p).
  destruct (Pos.to_uint p); [contradiction | ..]; reflexivity.
Qed.

End Words.

Section Acknowledgement.

Import Py Text Api Client.
Local Open Scope string_scope.

(** A [set] command, field by field. *)
Lemma set_command_fields (path_id channel_id : string) (value : Z) :
  set_command path_id channel_id value
  = "set" ++ String " " (address path_id channel_id
      ++ String " " ("0" ++ String " " ("0" ++ String " " (str_of_int value ++ newline)))).
Proof.
  unfold set_command, address. cbn [String.concat].
  repeat (first [rewrite append_assoc | progress cbn [append]]). reflexivity.
Qed.

Lemma nospace_address (path_id channel_id : string) :
  nospace path_id = true -> nospace channel_id = true ->
  nospace (address path_id channel_id) = true.
Proof.
  intros Hp Hc. unfold address. cbn [String.concat].
  rewrite !nospace_append, Hp, Hc. reflexivity.
Qed.

(** The fields of a line made of a first word and a [set] command. *)
Lemma split_set_line (first path_id channel_id : string) (value : Z) :
  nospace first = true -> is_empty first = false ->
  nospace path_id = true -> nospace channel_id = true ->
  split (first ++ String " " (set_command path_id channel_id value))
  = [first; "set"; address path_id channel_id; "0"; "0"; str_of_int value].
Proof.
  intros Hf Hfe Hp Hc. rewrite set_command_fields. unfold newline.
  rewrite (split_word_then first) by (assumption || reflexivity).
  rewrite (split_word_then "set") by reflexivity.
  rewrite (split_word_then (address path_id channel_id))
    by (first [apply nospace_address; assumption | reflexivity]).
  rewrite (split_word_then "0") by reflexivity.
  rewrite (split_word_then "0") by reflexivity.
  rewrite (split_word_then (str_of_int value) "" (ascii_of_nat 10))
    by (first [apply nospace_str_of_int | apply str_of_int_not_empty | reflexivity]).
  reflexivity.
Qed.

Lemma split_address (path_id channel_id : string) :
  free_of "/" path_id = true -> free_of "/" channel_id = true ->
  split_on "/" (address path_id channel_id)
  = ["MTX:mem_512"; path_id; "0"; channel_id; "0"; "0"; "0"].
Proof.
  intros Hp Hc. unfold address. apply split_on_concat; [discriminate |].
  repeat constructor; assumption.
Qed.

Lemma set_line_read (first path_id channel_id : string) (value : Z) :
  nospace first = true -> is_empty first = false ->
  nospace path_id = true -> free_of "/" path_id = true ->
  nospace channel_id = true -> free_of "/" channel_id = true ->
  addressed (first ++ String " " (set_command path_id channel_id value))
            path_id channel_id value.
Proof.
  intros Hf Hfe Hp1 Hp2 Hc1 Hc2.
  exists (address path_id channel_id), (str_of_int value).
  rewrite (split_set_line _ _ _ _ Hf Hfe Hp1 Hc1), (split_address _ _ Hp2 Hc2).
  repeat split; try reflexivity. apply int_reads_back.
Qed.

Lemma is_empty_append (a b : string) : is_empty b = false -> is_empty (a ++ b) = false.
Proof. destruct a; simpl; [tauto | reflexivity]. Qed.

Lemma rstrip_append (a b : string) :
  is_empty (rstrip b) = false -> rstrip (a ++ b) = a ++ rstrip b.
Proof.
  intros H. induction a as [| c a IH]; simpl; [reflexivity |].
  rewrite IH, (is_empty_append a _ H), andb_false_r. reflexivity.
Qed.

(** Stripping a line made of a first word and a [set] command removes the
    terminator and nothing else. *)
Lemma strip_set_line (first path_id channel_id : string) (value : Z) :
  starts_clean first = true -> is_empty first = false ->
  strip (first ++ String " " (set_command path_id channel_id value))
  = first ++ String " " ("set" ++ String " " (address path_id channel_id
      ++ String " " ("0" ++ String " " ("0" ++ String " " (str_of_int value))))).
Proof.
  intros Hs Hne. rewrite set_command_fields.
  set (lead := first ++ String " " ("set" ++ String " " (address path_id channel_id
                 ++ String " " ("0" ++ String " " ("0" ++ String " " ""))))).
  assert (first ++ String " " ("set" ++ String " " (address path_id channel_id
            ++ String " " ("0" ++ String " " ("0" ++ String " " (str_of_int value ++ newline)))))
          = lead ++ (str_of_int value ++ newline)) as E1.
  { subst lead. repeat (first [rewrite append_assoc | progress cbn [append]]). reflexivity. }
  assert (first ++ String " " ("set" ++ String " " (address path_id channel_id
            ++ String " " ("0" ++ String " " ("0" ++ String " " (str_of_int value)))))
          = lead ++ str_of_int value) as E2.
  { subst lead. repeat (first [rewrite append_assoc | progress cbn [append]]). reflexivity. }
  rewrite E1, E2. unfold strip.
  rewrite lstrip_clean.
  - rewrite rstrip_append; rewrite (rstrip_newline _ (nospace_str_of_int value)).
    + reflexivity.
    + apply str_of_int_not_empty.
  - subst lead. destruct first; [discriminate | exact Hs].
Qed.

(** X22.  A [set] command of the client comes back readable: the line
    that acknowledges it ([OK] and the command) and the line that reports
    it to other controllers ([NOTIFY] and the command) are both handed to
    the parser by the listener and read as an update of the same path, the
    same channel and the same value, for every value and every path and
    channel id free of whitespace and slashes. *)
Theorem set_lines_read_back (path_id channel_id : string) (value : Z) :
  nospace path_id = true -> free_of "/" path_id = true ->
  nospace channel_id = true -> free_of "/" channel_id = true ->
  (addressed (acknowledged (set_command path_id channel_id value)) path_id channel_id value
   /\ Listener.recognised (strip (acknowledged (set_command path_id channel_id value))) = true)
  /\ (addressed (notified (set_command path_id channel_id value)) path_id channel_id value
      /\ Listener.recognised (strip (notified (set_command path_id channel_id value))) = true).
Proof.
  intros Hp1 Hp2 Hc1 Hc2.
  change (acknowledged (set_command path_id channel_id value))
    with ("OK" ++ String " " (set_command path_id channel_id value)).
  change (notified (set_command path_id channel_id value))
    with ("NOTIFY" ++ String " " (set_command path_id channel_id value)).
  split; split.
  - apply set_line_read; assumption || reflexivity.
  - rewrite strip_set_line by reflexivity. reflexivity.
  - apply set_line_read; assumption || reflexivity.
  - rewrite strip_set_line by reflexivity. reflexivity.
Qed.




End Acknowledgement.


Lemma set_lines_read_back_witness :
  (Client.addressed (Text.acknowledged (Client.set_command "60002" "4" (-8000)))
                    "60002" "4" (-8000)
   /\ Listener.recognised
        (Py.strip (Text.acknowledged (Client.set_command "60002" "4" (-8000)))) = true)
  /\ (Client.addressed (Text.notified (Client.set_command "60002" "4" (-8000)))
                       "60002" "4" (-8000)
      /\ Listener.recognised
           (Py.strip (Text.notified (Client.set_command "60002" "4" (-8000)))) = true).
Proof. apply set_lines_read_back; reflexivity. Defined.


(** ** Witnesses for the session properties *)

Lemma send_command_write_failure_witness :
  fst (Client._send_command (Client.get_command "60003" "4")
         (Fixtures.broken_pipe Fixtures.two_zones))
  = inr tt
  /\ Session.closed
       (Api.self (snd (Client._send_command (Client.get_command "60003" "4")
                         (Fixtures.broken_pipe Fixtures.two_zones))))
  /\ Api.wire (snd (Client._send_command (Client.get_command "60003" "4")
                      (Fixtures.broken_pipe Fixtures.two_zones))) = []
  /\ Api.faults (snd (Client._send_command (Client.get_command "60003" "4")
                        (Fixtures.broken_pipe Fixtures.two_zones))) = []
  /\ Api.calls (snd (Client._send_command (Client.get_command "60003" "4")
                       (Fixtures.broken_pipe Fixtures.two_zones)))
     = [(0%nat, Client.available_patch false); (1%nat, Client.available_patch false);
        (2%nat, Client.available_patch false)].
Proof.
  apply (send_command_write_failure (Client.get_command "60003" "4") 1 Py.BrokenPipeError []
           (Fixtures.broken_pipe Fixtures.two_zones)); reflexivity.
Defined.

Lemma handshake_refused_witness :
  fst (Client._connect_and_handshake (Client.Opened 1) (Client.Read_line "ERROR busy")
         (Fixtures.offline Fixtures.two_zones))
  = inr false.
Proof.
  refine (proj1 (handshake_refused 1 (Client.Read_line "ERROR busy")
                   (Fixtures.offline Fixtures.two_zones) eq_refl (Forall_nil _) _)).
  simpl. discriminate.
Defined.

Lemma handshake_true_only_if_expected_witness :
  (exists h, Client.Opened 1 = Client.Opened h)
  /\ (exists text,
        Client.Read_line (Api.HANDSHAKE_RESPONSE ++ Py.newline) = Client.Read_line text
        /\ Py.strip text = Api.HANDSHAKE_RESPONSE).
Proof.
  apply (handshake_true_only_if_expected (Client.Opened 1)
           (Client.Read_line (Api.HANDSHAKE_RESPONSE ++ Py.newline))
           (Fixtures.offline Fixtures.two_zones)).
  reflexivity.
Defined.
